(** * Content-based article recommender: model and verified properties

    Shallow embedding of the recommendation core of the repository:
    - [src/my_content/recommendation_engine.py] (class [ContentRecommender]),
      embedded in [Module Engine];
    - [src/azure_function/function_app.py] (the HTTP function's copy of the
      same logic), embedded in [Module FunctionApp].

    Identifiers are Python integers ([Z]); scores are IEEE-754 binary64
    values ([PrimFloat.float]); pandas frames are lists of rows; Python
    dictionaries are insertion-ordered association lists; exceptions are an
    explicit result type. *)

From Stdlib Require Import String Ascii.
From Stdlib Require Import ZArith List Bool Lia Sorted Permutation.
From Stdlib Require Import PrimFloat FloatOps FloatAxioms SpecFloat DecimalString.
Import ListNotations.

Local Open Scope Z_scope.

(* ================================================================== *)
(** ** Exceptions *)

Inductive exn : Type :=
| ValueError     (* list.index on an absent value, int(nan) *)
| IndexError     (* subscript out of range *)
| OverflowError. (* float() of an integer beyond the binary64 range *)

Inductive exc (A : Type) : Type :=
| Ok (a : A)
| Raise (e : exn).

Arguments Ok {A} a.
Arguments Raise {A} e.

Definition bind {A B : Type} (m : exc A) (k : A -> exc B) : exc B :=
  match m with
  | Ok a => k a
  | Raise e => Raise e
  end.

Notation "x <- m ;; k" := (bind m (fun x => k))
  (at level 61, m at next level, right associativity).

(** [try: m except ValueError: h] *)
Definition try_except_ValueError {A : Type} (m : exc A) (h : exc A) : exc A :=
  match m with
  | Raise ValueError => h
  | other => other
  end.

(** Evaluation of a list comprehension / for-loop body that may raise:
    elements are processed left to right and the first exception escapes. *)
Fixpoint mapM {A B : Type} (f : A -> exc B) (l : list A) : exc (list B) :=
  match l with
  | [] => Ok []
  | x :: r => y <- f x ;; ys <- mapM f r ;; Ok (y :: ys)
  end.

(* ================================================================== *)
(** ** Python sequence operations *)

(** Clamping of one slice bound against a sequence of length [len], as
    Python does for [s[lo:hi]] with integer bounds. *)
Definition slice_bound (len i : Z) : Z :=
  if i <? 0 then Z.max 0 (len + i) else Z.min i len.

(** [l[lo:hi]] *)
Definition py_slice {A : Type} (lo hi : Z) (l : list A) : list A :=
  let len := Z.of_nat (length l) in
  let a := slice_bound len lo in
  let b := slice_bound len hi in
  firstn (Z.to_nat (b - a)) (skipn (Z.to_nat a) l).

(** [l[:n]]; also [DataFrame.head(n)] and [Series.head(n)], which for a
    negative [n] keep all rows but the last [-n]. *)
Definition py_prefix {A : Type} (n : Z) (l : list A) : list A :=
  py_slice 0 n l.

(** [l.index(x)]: position of the first occurrence, [ValueError] if none. *)
Fixpoint list_index (x : Z) (l : list Z) : exc nat :=
  match l with
  | [] => Raise ValueError
  | y :: r => if Z.eqb y x then Ok 0%nat
              else i <- list_index x r ;; Ok (S i)
  end.

(** [l[i]] for a non-negative index: [IndexError] when out of range. *)
Definition subscript {A : Type} (l : list A) (i : nat) : exc A :=
  match nth_error l i with
  | Some a => Ok a
  | None => Raise IndexError
  end.

(** [x in l] for a list of integers. *)
Definition py_in (x : Z) (l : list Z) : bool := existsb (Z.eqb x) l.

(** [Series.unique()]: distinct values in order of first appearance. *)
Fixpoint unique_from (seen : list Z) (l : list Z) : list Z :=
  match l with
  | [] => []
  | x :: r => if py_in x seen then unique_from seen r
              else x :: unique_from (x :: seen) r
  end.

Definition unique (l : list Z) : list Z := unique_from [] l.

(** [str(n)] for an integer, as used by the f-string [f'Article {id}']. *)
Definition str_of_int (n : Z) : string := NilZero.string_of_int (Z.to_int n).

(* ================================================================== *)
(** ** Floating-point scores *)

Definition score := float.
Definition vector := list float.

(** The binary64 value nearest to the integer [n], ties to even, as IEEE
    754 defines it; an infinity when [n] is beyond the binary64 range. *)
Definition float_of_int (n : Z) : float :=
  SF2Prim (binary_normalize prec emax n 0 false).

Definition float_overflows (n : Z) : bool :=
  match binary_normalize prec emax n 0 false with
  | S754_infinity _ => true
  | _ => false
  end.

(** [float(n)] for a Python integer: the nearest binary64 value, and
    [OverflowError] when the integer is too large for one. *)
Definition py_float (n : Z) : exc float :=
  if float_overflows n then Raise OverflowError else Ok (float_of_int n).

(** Scores ordered from the largest to the smallest. *)
Definition score_ge (a b : score) : Prop := PrimFloat.leb b a = true.

(** A sequence of scores sorted descending: every score is at least as
    large as every later one. *)
Definition descending (scores : list score) : Prop :=
  StronglySorted score_ge scores.

(** The same for integer counts. *)
Definition descending_counts (counts : list Z) : Prop :=
  StronglySorted Z.ge counts.

(** What [sorted(..., reverse=True)] establishes whatever the scores are:
    no score is followed by a greater one. *)
Definition sorted_descending (scores : list score) : Prop :=
  Sorted (fun a b => PrimFloat.ltb a b = false) scores.

(* ================================================================== *)
(** ** The numeric library used by the source

    [sklearn.metrics.pairwise.cosine_similarity] and [numpy.argsort] are
    library functions; the recommender is written against them, and so is
    the model.  [cosine_similarity q M] is row 0 of
    [cosine_similarity(q.reshape(1, -1), M)]; [argsort xs] is the index
    array returned by [np.argsort(xs)]. *)

Class NumericLibrary : Type := {
  cosine_similarity : vector -> list vector -> list score;
  argsort : list score -> list nat
}.

(** What numpy documents about [argsort]: a rearrangement of the indices
    [0 .. n-1] along which the values never decrease. *)
Definition argsort_ascending (sort : list score -> list nat) (xs : list score) : Prop :=
  Permutation (sort xs) (seq 0 (List.length xs)) /\
  forall i j a b x y,
    (i < j)%nat ->
    nth_error (sort xs) i = Some a -> nth_error (sort xs) j = Some b ->
    nth_error xs a = Some x -> nth_error xs b = Some y ->
    PrimFloat.ltb y x = false.

(** *** The concrete library, for evaluating the model on inputs

    An evaluation model for the examples: rows are finite binary64 vectors
    of one length, and a sum is taken from left to right.  sklearn forms
    the same quotients and products but leaves the order of the sum to
    BLAS, so that a value can differ in its last digit on other inputs;
    a row that holds a NaN or an infinity makes sklearn raise
    [ValueError], which [get_similar_articles] turns into the empty list,
    and a float32 matrix is computed in float32: such stores are outside
    this model.  Statements made for every library are made over
    [NumericLibrary], not over this module. *)

Module Numpy.

Local Open Scope float_scope.

(** Sum of products, accumulated left to right. *)
Definition dot (x y : vector) : float :=
  fold_left (fun acc p => acc + fst p * snd p) (combine x y) 0.

(** [sklearn.preprocessing.normalize]: a row is divided by its Euclidean
    norm, a zero norm being replaced by one. *)
Definition row_norm (x : vector) : float := sqrt (dot x x).

Definition normalize (x : vector) : vector :=
  let n := row_norm x in
  let n := if n =? 0 then 1 else n in
  map (fun a => a / n) x.

Definition cosine_similarity (q : vector) (M : list vector) : list score :=
  map (fun v => dot (normalize q) (normalize v)) M.

(** Insertion of index [i] in front of indices that are all larger and
    already ordered by value: [i] passes every index whose value is
    strictly smaller and stops at the first other one. *)
Fixpoint insert_index (xs : list score) (i : nat) (l : list nat) : list nat :=
  match l with
  | [] => [i]
  | j :: r =>
      if nth j xs nan <? nth i xs nan then j :: insert_index xs i r
      else i :: j :: r
  end.

(** numpy's default sort handles an array of at most 16 elements by
    insertion sort, which keeps equal values in index order; the examples
    evaluated with this function are of that size.  For a longer array
    numpy fixes no order among equal values: statements about every
    array use [argsort_ascending], which fixes none either. *)
Definition argsort (xs : list score) : list nat :=
  fold_right (insert_index xs) [] (seq 0 (List.length xs)).

End Numpy.

#[export] Instance numpy_sklearn : NumericLibrary := {
  cosine_similarity := Numpy.cosine_similarity;
  argsort := Numpy.argsort
}.

(* ================================================================== *)
(** ** Data model *)

(** A cell of a pandas column read from CSV: empty ([nan]) or a value. *)
Inductive cell (A : Type) : Type :=
| NaN
| Val (a : A).

Arguments NaN {A}.
Arguments Val {A} a.

(** One row of [articles_metadata].  [article_id] is the required column;
    for the optional columns [None] means that the frame has no such
    column, which is what [row.get(name, default)] tests. *)
Record meta_row : Type := {
  row_article_id : Z;
  row_title : option (cell string);
  row_category_id : option (cell Z);
  row_words_count : option (cell Z)
}.

(** One row of [user_clicks]. *)
Record click : Type := {
  user_id : Z;
  click_article_id : Z
}.

(** The loaded state: the attributes of [ContentRecommender], and the
    module-level globals of the function app. *)
Record recommender : Type := {
  article_ids : list Z;
  embeddings : list vector;
  articles_metadata : list meta_row;
  user_clicks : list click
}.

(** Values a result field can hold. *)
Inductive pyval : Type :=
| PStr (s : string)
| PInt (n : Z)
| PNaN.

(** The dictionary built by [_get_article_info] / [get_article_info]. *)
Record article_info : Type := {
  info_article_id : Z;
  info_title : pyval;
  info_category : pyval;
  info_words_count : Z
}.

(** A result entry: the article dictionary with its
    ['recommendation_score'] key set. *)
Record recommendation : Type := {
  rec_info : article_info;
  recommendation_score : score
}.

Definition rec_article_id (r : recommendation) : Z := info_article_id (rec_info r).

(** [int(x)] applied to a cell value: [int(nan)] raises [ValueError]. *)
Definition int_of_cell (c : cell Z) : exc Z :=
  match c with
  | NaN => Raise ValueError
  | Val n => Ok n
  end.

(** [frame[frame['article_id'] == article_id]], then [iloc[0]] when the
    selection is not empty. *)
Definition find_row (meta : list meta_row) (article_id : Z) : option meta_row :=
  find (fun r => Z.eqb (row_article_id r) article_id) meta.

(* ================================================================== *)
(** ** Operations common to both implementations *)

(** [get_user_history] (recommendation_engine.py 124-143,
    function_app.py 104-113). *)
Definition get_user_history (d : recommender) (uid : Z) : list Z :=
  match user_clicks d with
  | [] => []
  | _ =>
      let user_data := filter (fun c => Z.eqb (user_id c) uid) (user_clicks d) in
      match user_data with
      | [] => []
      | _ => unique (map click_article_id user_data)
      end
  end.

(** [get_similar_articles] (recommendation_engine.py 145-173,
    function_app.py 116-128). *)
Definition get_similar_articles `{NumericLibrary}
    (d : recommender) (article_id : Z) (top_k : Z) : exc (list (Z * score)) :=
  try_except_ValueError
    (article_idx <- list_index article_id (article_ids d) ;;
     article_embedding <- subscript (embeddings d) article_idx ;;
     let similarities := cosine_similarity article_embedding (embeddings d) in
     let similar_indices := py_slice 1 (top_k + 1) (rev (argsort similarities)) in
     mapM (fun idx =>
             aid <- subscript (article_ids d) idx ;;
             sim <- subscript similarities idx ;;
             Ok (aid, sim))
          similar_indices)
    (Ok []).

(** *** The dictionary [recommendations_scores]

    Keys in insertion order, each with its running sum. *)
Definition scores_dict : Type := list (Z * score).

Definition dict_has (k : Z) (d : scores_dict) : bool := py_in k (map fst d).

(** [d[k] += s] for a key already present. *)
Fixpoint dict_iadd (d : scores_dict) (k : Z) (s : score) : scores_dict :=
  match d with
  | [] => []
  | (k', v) :: r =>
      if Z.eqb k' k then (k', PrimFloat.add v s) :: r
      else (k', v) :: dict_iadd r k s
  end.

(** The body of the inner loop for a candidate that passed the history
    test: [if k not in d: d[k] = 0] followed by [d[k] += s]. *)
Definition add_score (d : scores_dict) (k : Z) (s : score) : scores_dict :=
  let d := if dict_has k d then d else d ++ [(k, 0%float)] in
  dict_iadd d k s.

(** The inner loop over the neighbours of one seed article. *)
Definition accumulate (user_history : list Z) (scores : scores_dict)
    (similar_articles : list (Z * score)) : scores_dict :=
  fold_left
    (fun acc p => if py_in (fst p) user_history then acc
                  else add_score acc (fst p) (snd p))
    similar_articles scores.

(** The outer loop over the seeds, [top_k=20] for each. *)
Fixpoint collect `{NumericLibrary} (d : recommender) (user_history : list Z)
    (seeds : list Z) (scores : scores_dict) : exc scores_dict :=
  match seeds with
  | [] => Ok scores
  | article_id :: rest =>
      similar_articles <- get_similar_articles d article_id 20 ;;
      collect d user_history rest (accumulate user_history scores similar_articles)
  end.

(** [sorted(items, key=lambda x: x[1], reverse=True)]: stable, an item
    moves in front of an earlier one only when its score is strictly
    greater. *)
Fixpoint insert_desc (x : Z * score) (l : list (Z * score)) : list (Z * score) :=
  match l with
  | [] => [x]
  | y :: r =>
      if PrimFloat.ltb (snd x) (snd y) then y :: insert_desc x r
      else x :: y :: r
  end.

Definition sorted_desc (l : list (Z * score)) : list (Z * score) :=
  fold_right insert_desc [] l.

(** Lines 200-218 of recommendation_engine.py, 166-182 of function_app.py:
    the ranked candidates, before enrichment. *)
Definition sorted_recommendations `{NumericLibrary} (d : recommender)
    (user_history : list Z) (top_n : Z) : exc (list (Z * score)) :=
  scores <- collect d user_history (py_prefix 5 user_history) [] ;;
  Ok (py_prefix top_n (sorted_desc scores)).

(** [Series.value_counts()]: each distinct value with its number of
    occurrences, largest count first.  Values with equal counts are kept
    in order of first appearance. *)
Definition occurrences (x : Z) (l : list Z) : Z :=
  Z.of_nat (List.length (filter (Z.eqb x) l)).

Fixpoint insert_count (x : Z * Z) (l : list (Z * Z)) : list (Z * Z) :=
  match l with
  | [] => [x]
  | y :: r =>
      if snd x <? snd y then y :: insert_count x r
      else x :: y :: r
  end.

Definition value_counts (l : list Z) : list (Z * Z) :=
  fold_right insert_count [] (map (fun x => (x, occurrences x l)) (unique l)).

(** The default title [f'Article {article_id}']. *)
Definition default_title (article_id : Z) : string :=
  ("Article " ++ str_of_int article_id)%string.

(** The three layouts of the pickled embeddings that [_load_data] tells
    apart, and anything else. *)
Inductive embeddings_data : Type :=
| Mapping (items : list (Z * vector))          (* dict: id -> vector *)
| Paired (ids : list Z) (matrix : list vector)  (* 2-tuple *)
| Matrix (matrix : list vector)                 (* bare ndarray *)
| Unrecognized.

(* ================================================================== *)
(** ** Files, blobs and the calls that read them *)

(** An exception as a caller sees it: one of the Python exceptions above,
    or one raised by the storage client, [pickle] or pandas while a file
    or blob is read. *)
Inductive exception : Type :=
| Python (e : exn)
| External.

(** The outcome of a call that may fail. *)
Inductive outcome (A : Type) : Type :=
| Returns (a : A)
| Throws (e : exception).

Arguments Returns {A} a.
Arguments Throws {A} e.

Definition outcome_of {A : Type} (m : exc A) : outcome A :=
  match m with
  | Ok a => Returns a
  | Raise e => Throws (Python e)
  end.

(** The frames of the files that could be read, in order: the loop
    [try: all_clicks.append(pd.read_csv(...)) except Exception: ...]. *)
Fixpoint read_all {A : Type} (reads : list (outcome (list A))) : list (list A) :=
  match reads with
  | [] => []
  | Returns df :: rest => df :: read_all rest
  | Throws _ :: rest => read_all rest
  end.

(** [list(range(lo, hi))] *)
Definition py_range (lo hi : Z) : list Z :=
  map (fun i => lo + Z.of_nat i) (seq 0 (Z.to_nat (hi - lo))).

(** [s.endswith(suffix)] *)
Definition endswith (s suffix : string) : bool :=
  let n := String.length s in
  let m := String.length suffix in
  (m <=? n)%nat && String.eqb (substring (n - m) m s) suffix.

(** [sub in s] for two strings. *)
Definition contains (sub s : string) : bool :=
  match index 0 sub s with
  | Some _ => true
  | None => false
  end.

(* ================================================================== *)
(** ** recommendation_engine.py *)

Module Engine.

(** Lines 49-69 of [_load_data]: the identifier list and the matrix. *)
Definition _load_data (data : embeddings_data) (metadata : list meta_row)
    : exc (list Z * list vector) :=
  match data with
  | Mapping items =>
      let ids := map fst items in
      Ok (ids, map snd items)
  | Paired ids matrix => Ok (ids, matrix)
  | Matrix matrix =>
      Ok (py_prefix (Z.of_nat (List.length matrix)) (map row_article_id metadata),
          matrix)
  | Unrecognized => Raise ValueError
  end.

(** The row lookup of lines 158-161: the vector stored for an article. *)
Definition vector_of (store : list Z * list vector) (article_id : Z) : exc vector :=
  article_idx <- list_index article_id (fst store) ;;
  subscript (snd store) article_idx.

(** [_get_article_info], lines 229-254. *)
Definition _get_article_info (d : recommender) (article_id : Z) : exc article_info :=
  match find_row (articles_metadata d) article_id with
  | None =>
      Ok {| info_article_id := article_id;
            info_title := PStr (default_title article_id);
            info_category := PStr "N/A";
            info_words_count := 0 |}
  | Some article =>
      let title :=
        match row_title article with
        | None => default_title article_id
        | Some NaN => default_title article_id
        | Some (Val s) => if String.eqb s EmptyString then default_title article_id else s
        end in
      let category :=
        match row_category_id article with
        | None => PStr "N/A"
        | Some NaN => PNaN
        | Some (Val c) => PInt c
        end in
      words_count <-
        match row_words_count article with
        | None => Ok 0
        | Some c => int_of_cell c
        end ;;
      Ok {| info_article_id := article_id;
            info_title := PStr title;
            info_category := category;
            info_words_count := words_count |}
  end.

(** The loop of lines 264-273 over [articles_metadata.head(top_n)];
    [done] is [len(results)].  The default title, used only when the frame
    has no title column, is rendered as for a frame whose numeric columns
    are all integer; when one of them is a float column [iterrows] hands
    the identifier over as a float, and the f-string writes ['Article 10.0'].
    No statement below depends on that title. *)
Fixpoint first_articles (top_n : Z) (done : Z) (rows : list meta_row)
    : exc (list recommendation) :=
  match rows with
  | [] => Ok []
  | row :: rest =>
      let title :=
        match row_title row with
        | None => PStr (default_title (row_article_id row))
        | Some NaN => PNaN
        | Some (Val s) => PStr s
        end in
      let category :=
        match row_category_id row with
        | None => PStr "N/A"
        | Some NaN => PNaN
        | Some (Val c) => PInt c
        end in
      words_count <-
        match row_words_count row with
        | None => Ok 0
        | Some c => int_of_cell c
        end ;;
      recommendation_score <- py_float (top_n - done) ;;
      let entry :=
        {| rec_info := {| info_article_id := row_article_id row;
                          info_title := title;
                          info_category := category;
                          info_words_count := words_count |};
           recommendation_score := recommendation_score |} in
      results <- first_articles top_n (done + 1) rest ;;
      Ok (entry :: results)
  end.

(** [_get_popular_articles], lines 256-284.  A count of [value_counts]
    is an int64, which [float] always accepts. *)
Definition _get_popular_articles (d : recommender) (top_n : Z)
    : exc (list recommendation) :=
  match user_clicks d with
  | [] => first_articles top_n 0 (py_prefix top_n (articles_metadata d))
  | _ =>
      let article_popularity :=
        py_prefix top_n (value_counts (map click_article_id (user_clicks d))) in
      mapM (fun p =>
              article_info <- _get_article_info d (fst p) ;;
              Ok {| rec_info := article_info;
                    recommendation_score := float_of_int (snd p) |})
           article_popularity
  end.

(** Lines 220-227: enrichment of the ranked candidates. *)
Definition enrich (d : recommender) (ranked : list (Z * score))
    : exc (list recommendation) :=
  mapM (fun p =>
          article_info <- _get_article_info d (fst p) ;;
          Ok {| rec_info := article_info; recommendation_score := snd p |})
       ranked.

(** [recommend_for_user], lines 175-227. *)
Definition recommend_for_user `{NumericLibrary}
    (d : recommender) (uid : Z) (top_n : Z) : exc (list recommendation) :=
  let user_history := get_user_history d uid in
  match user_history with
  | [] => _get_popular_articles d top_n
  | _ =>
      ranked <- sorted_recommendations d user_history top_n ;;
      enrich d ranked
  end.

(** A csv file of the folder [clicks/]: its name, and what [pd.read_csv]
    does on it. *)
Definition csv_file : Type := string * outcome (list click).

(** [sorted(...)] of the paths of one folder: ascending by name. *)
Fixpoint insert_by_name (f : csv_file) (l : list csv_file) : list csv_file :=
  match l with
  | [] => [f]
  | g :: rest =>
      if String.leb (fst f) (fst g) then f :: g :: rest
      else g :: insert_by_name f rest
  end.

Definition sorted_by_name (files : list csv_file) : list csv_file :=
  fold_right insert_by_name [] files.

(** [_load_clicks], lines 89-122.  [clicks_folder] is [None] when the
    folder does not exist, else the csv files that [glob] finds in it.
    The result is [self.user_clicks]; the empty frame is the empty
    list. *)
Definition _load_clicks (clicks_folder : option (list csv_file)) : list click :=
  match clicks_folder with
  | None => []
  | Some files =>
      let click_files := py_prefix 10 (sorted_by_name files) in
      match click_files with
      | [] => []
      | _ =>
          let all_clicks := read_all (map snd click_files) in
          match all_clicks with
          | [] => []
          | _ => concat all_clicks
          end
      end
  end.

(** [get_available_users], lines 286-301. *)
Definition get_available_users (d : recommender) (limit : Z) : list Z :=
  match user_clicks d with
  | [] => py_range 1 (Z.min (limit + 1) 101)
  | _ => py_prefix limit (unique (map user_id (user_clicks d)))
  end.

End Engine.

(* ================================================================== *)
(** ** function_app.py *)

Module FunctionApp.

(** Lines 54-64 of [load_data_from_blob]: the pickle is taken to be the
    bare matrix, identifiers come from the metadata. *)
Definition load_data_from_blob (matrix : list vector) (metadata : list meta_row)
    : list Z * list vector :=
  (py_prefix (Z.of_nat (List.length matrix)) (map row_article_id metadata), matrix).

(** [get_article_info], lines 131-149. *)
Definition get_article_info (d : recommender) (article_id : Z) : exc article_info :=
  match find_row (articles_metadata d) article_id with
  | None =>
      Ok {| info_article_id := article_id;
            info_title := PStr (default_title article_id);
            info_category := PStr "N/A";
            info_words_count := 0 |}
  | Some article =>
      category <-
        match row_category_id article with
        | None => Ok 0
        | Some c => int_of_cell c
        end ;;
      words_count <-
        match row_words_count article with
        | None => Ok 0
        | Some c => int_of_cell c
        end ;;
      Ok {| info_article_id := article_id;
            info_title := PStr (default_title article_id);
            info_category := PInt category;
            info_words_count := words_count |}
  end.

(** The loop of lines 159-164 over [enumerate(_article_ids[:top_n])]. *)
Fixpoint first_articles (d : recommender) (top_n : Z) (i : Z) (ids : list Z)
    : exc (list recommendation) :=
  match ids with
  | [] => Ok []
  | article_id :: rest =>
      article_info <- get_article_info d article_id ;;
      recommendation_score <- py_float (top_n - i) ;;
      results <- first_articles d top_n (i + 1) rest ;;
      Ok ({| rec_info := article_info;
             recommendation_score := recommendation_score |} :: results)
  end.

Definition enrich (d : recommender) (ranked : list (Z * score))
    : exc (list recommendation) :=
  mapM (fun p =>
          article_info <- get_article_info d (fst p) ;;
          Ok {| rec_info := article_info; recommendation_score := snd p |})
       ranked.

(** [recommend_for_user], lines 152-190. *)
Definition recommend_for_user `{NumericLibrary}
    (d : recommender) (uid : Z) (top_n : Z) : exc (list recommendation) :=
  let user_history := get_user_history d uid in
  match user_history with
  | [] => first_articles d top_n 0 (py_prefix top_n (article_ids d))
  | _ =>
      ranked <- sorted_recommendations d user_history top_n ;;
      enrich d ranked
  end.

End FunctionApp.

(* ================================================================== *)
(** ** function_app.py: the cache and the HTTP function *)

Module Service.

(** The module-level globals, [None] until they are assigned. *)
Record globals : Type := {
  _embeddings : option (list vector);
  _article_ids : option (list Z);
  _articles_metadata : option (list meta_row);
  _user_clicks : option (list click)
}.

Definition unloaded : globals :=
  {| _embeddings := None; _article_ids := None;
     _articles_metadata := None; _user_clicks := None |}.

(** The container [data] of the storage account, as far as the loader
    looks at it: the two fixed blobs, downloaded and decoded; the blob
    names that [list_blobs] yields, with or without [name_starts_with];
    and one click blob, downloaded and parsed. *)
Record container : Type := {
  articles_embeddings_pickle : outcome (list vector);
  articles_metadata_csv : outcome (list meta_row);
  list_blobs : option string -> outcome (list string);
  read_csv : string -> outcome (list click)
}.

(** The process environment and the storage service behind a connection
    string. *)
Record environment : Type := {
  AzureWebJobsStorage : option string;
  get_container_client : string -> outcome container
}.

(** Lines 73-79: the click blobs that are read. *)
Definition click_files (c : container) : outcome (list string) :=
  match list_blobs c (Some "clicks/"%string) with
  | Throws e => Throws e
  | Returns names =>
      match py_prefix 10 (filter (fun name => endswith name ".csv") names) with
      | [] =>
          match list_blobs c None with
          | Throws e => Throws e
          | Returns names =>
              Returns (py_prefix 10 (filter (contains "clicks_hour") names))
          end
      | files => Returns files
      end
  end.

(** [load_data_from_blob], lines 25-101: the globals after the call, and
    whether the call returned or raised. *)
Definition load_data_from_blob (env : environment) (g : globals)
    : globals * outcome unit :=
  match _embeddings g with
  | Some _ => (g, Returns tt)
  | None =>
  match AzureWebJobsStorage env with
  | None => (g, Throws (Python ValueError))
  | Some connect_str =>
  if String.eqb connect_str EmptyString then (g, Throws (Python ValueError))
  else
  match get_container_client env connect_str with
  | Throws e => (g, Throws e)
  | Returns c =>
  match articles_embeddings_pickle c with
  | Throws e => (g, Throws e)
  | Returns embeddings_data =>
  let g1 := {| _embeddings := Some embeddings_data;
               _article_ids := _article_ids g;
               _articles_metadata := _articles_metadata g;
               _user_clicks := _user_clicks g |} in
  match articles_metadata_csv c with
  | Throws e => (g1, Throws e)
  | Returns metadata =>
  let ids := py_prefix (Z.of_nat (List.length embeddings_data))
                       (map row_article_id metadata) in
  let g2 := {| _embeddings := Some embeddings_data;
               _article_ids := Some ids;
               _articles_metadata := Some metadata;
               _user_clicks := _user_clicks g |} in
  match click_files c with
  | Throws e => (g2, Throws e)
  | Returns files =>
      let all_clicks := read_all (map (read_csv c) files) in
      ({| _embeddings := Some embeddings_data;
          _article_ids := Some ids;
          _articles_metadata := Some metadata;
          _user_clicks := Some (concat all_clicks) |}, Returns tt)
  end end end end end end.

(** The globals seen as a store, once all four are assigned. *)
Definition loaded (g : globals) : option recommender :=
  match _embeddings g, _article_ids g, _articles_metadata g, _user_clicks g with
  | Some m, Some ids, Some metadata, Some clicks =>
      Some {| article_ids := ids; embeddings := m;
              articles_metadata := metadata; user_clicks := clicks |}
  | _, _, _, _ => None
  end.

(** The JSON object of a response, before [json.dumps]. *)
Inductive response_body : Type :=
| missing_user_id                       (* {"error": "Parametre 'user_id' manquant"} *)
| not_integers                          (* {"error": "user_id et top_n doivent ..."} *)
| error_of (e : exception)              (* {"error": str(e)} *)
| recommendations_for (user_id : Z) (recommendations : list recommendation)
                      (count : Z).

Record HttpResponse : Type := {
  body : response_body;
  status_code : Z
}.

(** [recommend], lines 193-254.  [int] is the builtin applied to a query
    string parameter.  [load] is what [load_data_from_blob()] does in the
    current state and [recommend_for_user] what the function of that name
    does after it; [user_id] and [top_n] are
    [req.params.get('user_id')] and the raw [top_n] parameter. *)
Definition recommend (int : string -> exc Z) (load : outcome unit)
    (recommend_for_user : Z -> Z -> outcome (list recommendation))
    (user_id top_n : option string) : HttpResponse :=
  match load with
  | Throws e => {| body := error_of e; status_code := 500 |}
  | Returns _ =>
  let top_n := match top_n with Some s => s | None => "5"%string end in
  match user_id with
  | None => {| body := missing_user_id; status_code := 400 |}
  | Some user_id =>
  if String.eqb user_id EmptyString
  then {| body := missing_user_id; status_code := 400 |}
  else
  match int user_id with
  | Raise ValueError => {| body := not_integers; status_code := 400 |}
  | Raise e => {| body := error_of (Python e); status_code := 500 |}
  | Ok user_id =>
  match int top_n with
  | Raise ValueError => {| body := not_integers; status_code := 400 |}
  | Raise e => {| body := error_of (Python e); status_code := 500 |}
  | Ok top_n =>
  match recommend_for_user user_id top_n with
  | Throws e => {| body := error_of e; status_code := 500 |}
  | Returns recommendations =>
      {| body := recommendations_for user_id recommendations
                   (Z.of_nat (List.length recommendations));
         status_code := 200 |}
  end end end end end.

(** The function serving from a cache that holds the store [d]. *)
Definition recommend_from `{NumericLibrary} (int : string -> exc Z)
    (d : recommender) (user_id top_n : option string) : HttpResponse :=
  recommend int (Returns tt)
    (fun user_id top_n => outcome_of (FunctionApp.recommend_for_user d user_id top_n))
    user_id top_n.

(** [int] on plain decimal literals (an optional sign, then digits), for
    evaluating the function on examples.  Python's [int] also accepts
    blanks around the literal and underscores between digits; statements
    about the function take [int] as a parameter. *)
Definition int_of_decimal (s : string) : exc Z :=
  match NilZero.int_of_string s with
  | Some i => Ok (Z.of_int i)
  | None => Raise ValueError
  end.

End Service.

(* ================================================================== *)
(** ** Inputs used to evaluate the model *)

Module Examples.

Local Open Scope string_scope.

Definition plain_row (id : Z) : meta_row :=
  {| row_article_id := id;
     row_title := Some (Val ("Title " ++ str_of_int id));
     row_category_id := Some (Val 7);
     row_words_count := Some (Val 100) |}.

(** The scenario of the specification: embeddings
    [{1:[1,0], 2:[1,0], 3:[0,1]}], titles for 1, 2 and 3. *)
Definition duplicate_store : recommender :=
  {| article_ids := [1; 2; 3];
     embeddings := [[1; 0]; [1; 0]; [0; 1]]%float;
     articles_metadata := map plain_row [1; 2; 3];
     user_clicks := [] |}.

(** Four articles with pairwise different directions; user 42 read
    article 1 twice, user 43 read articles 2 and then 3, user 46 read an
    article that has no embedding. *)
Definition small_store : recommender :=
  {| article_ids := [1; 2; 3; 4];
     embeddings := [[1; 0]; [3; 4]; [0; 1]; [-1; 0]]%float;
     articles_metadata := map plain_row [1; 2; 3; 4];
     user_clicks := [ {| user_id := 42; click_article_id := 1 |};
                      {| user_id := 43; click_article_id := 2 |};
                      {| user_id := 42; click_article_id := 1 |};
                      {| user_id := 43; click_article_id := 3 |};
                      {| user_id := 44; click_article_id := 3 |};
                      {| user_id := 45; click_article_id := 3 |};
                      {| user_id := 46; click_article_id := 99 |} ] |}.

(** An empty interaction log and the catalog [10, 20, 30, 40, 50]. *)
Definition empty_log_store : recommender :=
  {| article_ids := [10; 20; 30; 40; 50];
     embeddings := [[1; 0]; [0; 1]; [1; 1]; [2; 1]; [1; 2]]%float;
     articles_metadata := map plain_row [10; 20; 30; 40; 50];
     user_clicks := [] |}.

(** A catalog row whose [words_count] cell is empty. *)
Definition sparse_row : meta_row :=
  {| row_article_id := 7;
     row_title := Some (Val "Seven");
     row_category_id := Some (Val 3);
     row_words_count := Some NaN |}.

Definition sparse_store : recommender :=
  {| article_ids := [7];
     embeddings := [[1; 0]]%float;
     articles_metadata := [sparse_row];
     user_clicks := [] |}.

(** A log in which popularity order ([20] twice, [30] once) differs from
    catalog order ([10, 20, 30]). *)
Definition popular_store : recommender :=
  {| article_ids := [10; 20; 30];
     embeddings := [[1; 0]; [0; 1]; [1; 1]]%float;
     articles_metadata := map plain_row [10; 20; 30];
     user_clicks := [ {| user_id := 1; click_article_id := 20 |};
                      {| user_id := 1; click_article_id := 30 |};
                      {| user_id := 2; click_article_id := 20 |} ] |}.






End Examples.

(* ================================================================== *)
(** * Properties *)

(** ** Results of loops that may raise *)

Lemma bind_ok {A B : Type} (m : exc A) (k : A -> exc B) (b : B) :
  bind m k = Ok b -> exists a, m = Ok a /\ k a = Ok b.
Proof.
  destruct m as [a|e]; simpl; intros H; [exists a; auto | discriminate].
Qed.

Lemma mapM_ok {A B : Type} (f : A -> exc B) (l : list A) (r : list B) :
  mapM f l = Ok r -> Forall2 (fun x y => f x = Ok y) l r.
Proof.
  revert r; induction l as [|x l IH]; simpl; intros r H.
  - injection H as <-. constructor.
  - apply bind_ok in H. destruct H as (y & Hy & H).
    apply bind_ok in H. destruct H as (ys & Hys & H).
    injection H as <-. constructor; auto.
Qed.

Lemma mapM_total {A B : Type} (f : A -> exc B) (l : list A) :
  (forall x, In x l -> exists y, f x = Ok y) -> exists r, mapM f l = Ok r.
Proof.
  induction l as [|x l IH]; simpl; intros H.
  - eexists; reflexivity.
  - destruct (H x (or_introl eq_refl)) as (y & ->).
    destruct IH as (r & ->); [intros; apply H; auto|].
    simpl. eexists; reflexivity.
Qed.

Lemma Forall2_length_eq {A B : Type} (R : A -> B -> Prop) l r :
  Forall2 R l r -> List.length r = List.length l.
Proof. induction 1; simpl; congruence. Qed.

Lemma Forall2_map_eq {A B C : Type} (R : A -> B -> Prop)
    (g : A -> C) (h : B -> C) l r :
  Forall2 R l r -> (forall x y, R x y -> h y = g x) -> map h r = map g l.
Proof.
  induction 1; simpl; intros Hgh; [reflexivity|].
  f_equal; auto.
Qed.

(** ** Slices *)

Lemma firstn_In {A : Type} (k : nat) (l : list A) (x : A) :
  In x (firstn k l) -> In x l.
Proof.
  revert k; induction l as [|y l IH]; intros [|k]; simpl; try tauto.
  intros [->|H]; eauto.
Qed.

Lemma skipn_In {A : Type} (k : nat) (l : list A) (x : A) :
  In x (skipn k l) -> In x l.
Proof.
  revert k; induction l as [|y l IH]; intros [|k]; simpl; try tauto.
  intros H; eauto.
Qed.

Lemma py_slice_firstn_skipn {A : Type} (lo hi : Z) (l : list A) :
  exists a k, py_slice lo hi l = firstn k (skipn a l).
Proof. unfold py_slice. eauto. Qed.

Lemma py_slice_In {A : Type} (lo hi : Z) (l : list A) (x : A) :
  In x (py_slice lo hi l) -> In x l.
Proof.
  destruct (py_slice_firstn_skipn lo hi l) as (a & k & ->).
  intros H. apply firstn_In in H. eapply skipn_In; eauto.
Qed.

Lemma py_prefix_nonneg {A : Type} (n : Z) (l : list A) :
  0 <= n -> py_prefix n l = firstn (Z.to_nat n) l.
Proof.
  intros Hn. unfold py_prefix, py_slice, slice_bound.
  assert (H0 : (0 <? 0) = false) by reflexivity. rewrite H0.
  assert (Hn' : (n <? 0) = false) by (apply Z.ltb_ge; lia). rewrite Hn'.
  rewrite (Z.min_l 0) by lia. simpl skipn. rewrite Z.sub_0_r.
  destruct (Z.le_gt_cases n (Z.of_nat (List.length l))) as [Hle|Hgt].
  - rewrite Z.min_l by lia. reflexivity.
  - rewrite Z.min_r by lia. rewrite Nat2Z.id.
    rewrite firstn_all. symmetry. apply firstn_all2. lia.
Qed.

Lemma py_prefix_firstn {A : Type} (n : Z) (l : list A) :
  exists k, py_prefix n l = firstn k l.
Proof.
  unfold py_prefix, py_slice, slice_bound.
  assert (H0 : (0 <? 0) = false) by reflexivity. rewrite H0.
  rewrite (Z.min_l 0) by lia. simpl skipn. eauto.
Qed.

Lemma py_prefix_length {A : Type} (n : Z) (l : list A) :
  0 <= n -> Z.of_nat (List.length (py_prefix n l)) <= n.
Proof.
  intros Hn. rewrite py_prefix_nonneg by assumption.
  rewrite length_firstn. lia.
Qed.

Lemma py_prefix_nil {A : Type} (n : Z) : py_prefix n (@nil A) = [].
Proof.
  destruct (py_prefix_firstn n (@nil A)) as (k & ->). apply firstn_nil.
Qed.

Lemma py_slice_from_1_length {A : Type} (k : Z) (l : list A) :
  0 <= k -> Z.of_nat (List.length (py_slice 1 (k + 1) l)) <= k.
Proof.
  intros Hk. unfold py_slice, slice_bound.
  assert (H1 : (1 <? 0) = false) by reflexivity. rewrite H1.
  assert (Hk' : (k + 1 <? 0) = false) by (apply Z.ltb_ge; lia). rewrite Hk'.
  rewrite length_firstn. lia.
Qed.

Lemma firstn_NoDup {A : Type} (k : nat) (l : list A) :
  NoDup l -> NoDup (firstn k l).
Proof.
  revert k; induction l as [|x l IH]; intros [|k] H; simpl; try constructor.
  - inversion H; subst. intros Hin. apply firstn_In in Hin. contradiction.
  - inversion H; auto.
Qed.


Lemma firstn_Sorted {A : Type} (R : A -> A -> Prop) (k : nat) (l : list A) :
  Sorted R l -> Sorted R (firstn k l).
Proof.
  revert k; induction l as [|x l IH]; intros [|k] H; simpl; try constructor.
  - inversion H; auto.
  - inversion H as [|? ? _ Hd]; subst.
    destruct l as [|y l]; destruct k; simpl; constructor.
    inversion Hd; auto.
Qed.

(** ** Membership tests and [unique] *)

Lemma py_in_true (x : Z) (l : list Z) : py_in x l = true <-> In x l.
Proof.
  unfold py_in. rewrite existsb_exists. split.
  - intros (y & Hy & Heq). apply Z.eqb_eq in Heq. subst; auto.
  - intros H. exists x. split; auto. apply Z.eqb_refl.
Qed.

Lemma py_in_false (x : Z) (l : list Z) : py_in x l = false <-> ~ In x l.
Proof.
  rewrite <- py_in_true. destruct (py_in x l); split; congruence.
Qed.

Lemma unique_from_spec (seen l : list Z) :
  NoDup (unique_from seen l) /\
  forall x, In x (unique_from seen l) <-> In x l /\ ~ In x seen.
Proof.
  revert seen; induction l as [|x l IH]; intros seen; simpl.
  - split; [constructor | intros; tauto].
  - destruct (py_in x seen) eqn:Hx.
    + apply py_in_true in Hx. destruct (IH seen) as [Hnd Hin].
      split; [assumption|]. intros y. rewrite Hin.
      split; [tauto|]. intros [[<-|Hy] Hns]; tauto.
    + apply py_in_false in Hx. destruct (IH (x :: seen)) as [Hnd Hin].
      split.
      * constructor; [|assumption]. rewrite Hin. simpl. tauto.
      * intros y. simpl. rewrite Hin. simpl.
        destruct (Z.eq_dec x y) as [->|Hne]; tauto.
Qed.

Lemma unique_NoDup (l : list Z) : NoDup (unique l).
Proof. apply unique_from_spec. Qed.

Lemma unique_In (l : list Z) (x : Z) : In x (unique l) <-> In x l.
Proof.
  unfold unique. destruct (unique_from_spec [] l) as [_ H].
  rewrite H. simpl. tauto.
Qed.

(* ================================================================== *)
(** ** Order on binary64 scores

    The comparison primitives are specified on [spec_float]; what the
    sorting arguments need is derived from that specification. *)

Module FloatOrder.

Definition not_nan (x : float) : Prop := PrimFloat.is_nan x = false.

Ltac cmp_cases :=
  repeat match goal with
    | |- context [Z.compare ?a ?b] => destruct (Z.compare_spec a b); subst
    | H : context [Z.compare ?a ?b] |- _ => destruct (Z.compare_spec a b); subst
    | |- context [Pos.compare_cont Eq ?a ?b] =>
        change (Pos.compare_cont Eq a b) with (Pos.compare a b);
        destruct (Pos.compare_spec a b); subst
    | H : context [Pos.compare_cont Eq ?a ?b] |- _ =>
        change (Pos.compare_cont Eq a b) with (Pos.compare a b) in H;
        destruct (Pos.compare_spec a b); subst
    end.

Lemma SFcompare_antisym (x y : spec_float) :
  SFcompare y x = option_map CompOpp (SFcompare x y).
Proof.
  destruct x as [[]|[]| |[] mx ex], y as [[]|[]| |[] my ey];
    simpl; try reflexivity; cmp_cases; simpl; try reflexivity; lia.
Qed.

Lemma SFcompare_None (x y : spec_float) :
  SFcompare x y = None -> x = S754_nan \/ y = S754_nan.
Proof.
  destruct x as [[]|[]| |[] mx ex], y as [[]|[]| |[] my ey];
    simpl; auto; discriminate.
Qed.

Lemma SFcompare_refl (x : spec_float) :
  x <> S754_nan -> SFcompare x x = Some Eq.
Proof.
  destruct x as [[]|[]| |[] mx ex]; simpl; try reflexivity; try congruence;
    intros _; rewrite Z.compare_refl;
    change (Pos.compare_cont Eq mx mx) with (Pos.compare mx mx);
    rewrite Pos.compare_refl; reflexivity.
Qed.

Definition SFle (x y : spec_float) : Prop :=
  SFcompare x y = Some Lt \/ SFcompare x y = Some Eq.

Lemma SFle_trans (x y z : spec_float) : SFle x y -> SFle y z -> SFle x z.
Proof.
  unfold SFle.
  destruct x as [[]|[]| |[] mx ex], y as [[]|[]| |[] my ey],
           z as [[]|[]| |[] mz ez];
    simpl; intros [H1|H1] [H2|H2]; try discriminate; auto;
    cmp_cases; simpl in *; try discriminate; auto; lia.
Qed.

Lemma not_nan_spec (x : float) : not_nan x <-> Prim2SF x <> S754_nan.
Proof.
  unfold not_nan, PrimFloat.is_nan. rewrite eqb_spec. unfold SFeqb.
  split.
  - intros H Hn. rewrite Hn in H. discriminate.
  - intros H. rewrite SFcompare_refl by assumption. reflexivity.
Qed.

Lemma leb_SFle (x y : float) :
  PrimFloat.leb x y = true <-> SFle (Prim2SF x) (Prim2SF y).
Proof.
  rewrite leb_spec. unfold SFleb, SFle.
  destruct (SFcompare (Prim2SF x) (Prim2SF y)) as [[]|];
    split; intros H; try reflexivity; try discriminate; auto;
    destruct H; discriminate.
Qed.

(** [<=] is transitive on all binary64 values. *)
Lemma leb_trans (x y z : float) :
  PrimFloat.leb x y = true -> PrimFloat.leb y z = true ->
  PrimFloat.leb x z = true.
Proof. rewrite !leb_SFle. apply SFle_trans. Qed.

(** [<] is asymmetric on all binary64 values. *)
Lemma ltb_asym (x y : float) :
  PrimFloat.ltb x y = true -> PrimFloat.ltb y x = false.
Proof.
  rewrite !ltb_spec. unfold SFltb.
  rewrite (SFcompare_antisym (Prim2SF x) (Prim2SF y)).
  destruct (SFcompare (Prim2SF x) (Prim2SF y)) as [[]|]; simpl; congruence.
Qed.

(** Away from NaN the order is total: not [x < y] means [y <= x]. *)
Lemma not_ltb_leb (x y : float) :
  not_nan x -> not_nan y ->
  PrimFloat.ltb x y = false -> PrimFloat.leb y x = true.
Proof.
  rewrite !not_nan_spec, ltb_spec, leb_spec. unfold SFltb, SFleb.
  rewrite (SFcompare_antisym (Prim2SF x) (Prim2SF y)).
  intros Hx Hy.
  destruct (SFcompare (Prim2SF x) (Prim2SF y)) as [[]|] eqn:Hc;
    simpl; try congruence.
  apply SFcompare_None in Hc. tauto.
Qed.

Lemma leb_not_ltb (x y : float) :
  PrimFloat.leb y x = true -> PrimFloat.ltb x y = false.
Proof.
  rewrite ltb_spec, leb_spec. unfold SFltb, SFleb.
  rewrite (SFcompare_antisym (Prim2SF x) (Prim2SF y)).
  destruct (SFcompare (Prim2SF x) (Prim2SF y)) as [[]|]; simpl; congruence.
Qed.

End FloatOrder.

(* ================================================================== *)
(** ** [float(n)] on integers below 2^53

    Such integers are represented exactly, so the conversion preserves
    their order. *)

Module IntToFloat.

Lemma shr_1_spec (m : Z) (r s : bool) :
  0 <= m ->
  shr_1 {| shr_m := m; shr_r := r; shr_s := s |}
  = {| shr_m := Z.div2 m; shr_r := Z.odd m; shr_s := r || s |}.
Proof. destruct m as [|[p|p|]|p]; try lia; reflexivity. Qed.

Lemma iter_pos_nat {A : Type} (f : A -> A) (p : positive) (x : A) :
  iter_pos f p x = Nat.iter (Pos.to_nat p) f x.
Proof.
  revert x. induction p as [p IH|p IH|]; intros x; cbn [iter_pos].
  - rewrite !IH. rewrite Pos2Nat.inj_xI.
    replace (S (2 * Pos.to_nat p))%nat with (Pos.to_nat p + S (Pos.to_nat p))%nat by lia.
    rewrite Nat.iter_add. f_equal. rewrite Nat.iter_succ_r. reflexivity.
  - rewrite !IH. rewrite Pos2Nat.inj_xO.
    replace (2 * Pos.to_nat p)%nat with (Pos.to_nat p + Pos.to_nat p)%nat by lia.
    rewrite Nat.iter_add. reflexivity.
  - simpl. reflexivity.
Qed.

Definition shr_inv (m T : Z) (R : shr_record) : Prop :=
  exists rem,
    m = T * shr_m R + rem /\ 0 <= rem < T /\ 0 <= shr_m R /\
    (shr_r R = true <-> T <= 2 * rem) /\
    (shr_s R = true <-> rem <> 0 /\ 2 * rem <> T).

Lemma shr_inv_iter (m : Z) (k : nat) :
  0 <= m ->
  shr_inv m (2 ^ Z.of_nat k)
    (Nat.iter k shr_1 {| shr_m := m; shr_r := false; shr_s := false |}).
Proof.
  intros Hm. induction k as [|k IH].
  - exists 0. simpl. split; [destruct m; lia|]. split; [lia|].
    split; [assumption|]. split; split; intros H; try discriminate; lia.
  - rewrite Nat2Z.inj_succ, Z.pow_succ_r by lia. rewrite Nat.iter_succ.
    destruct (Nat.iter k shr_1 _) as [mk r s].
    destruct IH as (rem & Heq & Hrem & Hmk & Hr & Hs).
    cbn [shr_m shr_r shr_s] in *.
    rewrite shr_1_spec by assumption. cbn [shr_m shr_r shr_s].
    pose proof (Z.div2_odd mk) as Hd.
    assert (Hd2 : 0 <= Z.div2 mk) by (apply Z.div2_nonneg; assumption).
    set (T := 2 ^ Z.of_nat k) in *.
    assert (Hrs : r || s = true <-> rem <> 0).
    { rewrite orb_true_iff, Hr, Hs. lia. }
    destruct (Z.odd mk) eqn:Ho; cbn [Z.b2z] in Hd.
    + exists (rem + T). cbn [shr_m shr_r shr_s].
      split; [rewrite Heq; rewrite Hd at 1; ring|]. split; [lia|]. split; [assumption|].
      split; [split; intros; [lia|reflexivity]|].
      rewrite Hrs. lia.
    + exists rem. cbn [shr_m shr_r shr_s].
      split; [rewrite Heq; rewrite Hd at 1; ring|]. split; [lia|]. split; [assumption|].
      split; [split; intros; [discriminate|lia]|].
      rewrite Hrs. lia.
Qed.

Definition round_shift (m s : Z) : Z :=
  let T := 2 ^ s in
  let q := m / T in
  let rem := m mod T in
  if (T <? 2 * rem) || ((T =? 2 * rem) && Z.odd q) then q + 1 else q.

Lemma round_after_shr (m : Z) (k : positive) :
  0 <= m ->
  round_nearest_even
    (shr_m (iter_pos shr_1 k {| shr_m := m; shr_r := false; shr_s := false |}))
    (loc_of_shr_record
       (iter_pos shr_1 k {| shr_m := m; shr_r := false; shr_s := false |}))
  = round_shift m (Zpos k).
Proof.
  intros Hm. rewrite iter_pos_nat.
  pose proof (shr_inv_iter m (Pos.to_nat k) Hm) as Hinv.
  rewrite positive_nat_Z in Hinv.
  destruct (Nat.iter (Pos.to_nat k) shr_1 _) as [q r s].
  destruct Hinv as (rem & Heq & Hrem & Hq & Hr & Hs).
  cbn [shr_m shr_r shr_s] in *. unfold round_shift.
  set (T := 2 ^ Zpos k) in *.
  assert (Hdiv : m / T = q) by (symmetry; apply (Z.div_unique m T q rem); [lia|assumption]).
  assert (Hmod : m mod T = rem) by (symmetry; apply (Z.mod_unique m T q rem); [lia|assumption]).
  rewrite Hdiv, Hmod.
  destruct r, s; cbn [loc_of_shr_record round_nearest_even];
    rewrite <- ?Z.negb_odd;
    destruct (Z.ltb_spec T (2 * rem)) as [Hlt|Hge];
    destruct (Z.eqb_spec T (2 * rem)) as [He|Hne];
    cbn [orb andb negb]; try reflexivity;
    try (destruct (Z.odd q); reflexivity);
    exfalso; destruct Hr as [Hr1 Hr2]; destruct Hs as [Hs1 Hs2];
    try (specialize (Hr1 eq_refl)); try (specialize (Hs1 eq_refl));
    try lia;
    first [ assert (false = true) by (apply Hr2; lia); discriminate
          | assert (false = true) by (apply Hs2; lia); discriminate ].
Qed.

Lemma digits2_bounds (p : positive) :
  2 ^ (Zpos (digits2_pos p) - 1) <= Zpos p < 2 ^ Zpos (digits2_pos p).
Proof.
  induction p as [p IH|p IH|]; cbn [digits2_pos].
  - rewrite Pos2Z.inj_succ.
    replace (Z.succ (Z.pos (digits2_pos p)) - 1)
      with (Z.succ (Z.pos (digits2_pos p) - 1)) by lia.
    rewrite !Z.pow_succ_r by lia. lia.
  - rewrite Pos2Z.inj_succ.
    replace (Z.succ (Z.pos (digits2_pos p)) - 1)
      with (Z.succ (Z.pos (digits2_pos p) - 1)) by lia.
    rewrite !Z.pow_succ_r by lia. lia.
  - simpl. lia.
Qed.

Lemma digits2_unique (p : positive) (k : Z) :
  2 ^ (k - 1) <= Zpos p < 2 ^ k -> Zpos (digits2_pos p) = k.
Proof.
  intros [Hlo Hhi]. destruct (digits2_bounds p) as [Dlo Dhi].
  assert (Hk : 0 < k).
  { destruct (Z.lt_ge_cases 0 k) as [|Hle]; [assumption|]. exfalso.
    destruct (Z.eq_dec k 0) as [->|Hne]; [simpl in Hhi; lia|].
    rewrite Z.pow_neg_r in Hhi by lia. lia. }
  destruct (Z.lt_trichotomy (Zpos (digits2_pos p)) k) as [Hlt|[Heq|Hgt]];
    [|assumption|].
  - assert (2 ^ Zpos (digits2_pos p) <= 2 ^ (k - 1))
      by (apply Z.pow_le_mono_r; lia). lia.
  - assert (2 ^ k <= 2 ^ (Zpos (digits2_pos p) - 1))
      by (apply Z.pow_le_mono_r; lia). lia.
Qed.

Definition SF_of (sx : bool) (m e : Z) : spec_float :=
  if e <=? 971 then S754_finite sx (Z.to_pos m) e else S754_infinity sx.

Lemma shifted_mantissa (p : positive) (s : Z) :
  0 < s -> s = Zpos (digits2_pos p) - 53 ->
  2 ^ 52 <= Zpos p / 2 ^ s < 2 ^ 53.
Proof.
  intros Hs Hd. destruct (digits2_bounds p) as [Dlo Dhi].
  assert (HT : 0 < 2 ^ s) by (apply Z.pow_pos_nonneg; lia).
  replace (Zpos (digits2_pos p) - 1) with (52 + s) in Dlo by lia.
  replace (Zpos (digits2_pos p)) with (53 + s) in Dhi by lia.
  rewrite Z.pow_add_r in Dlo, Dhi by lia. split.
  - apply Z.div_le_lower_bound; lia.
  - apply Z.div_lt_upper_bound; lia.
Qed.

Lemma round_shift_bounds (m s : Z) :
  m / 2 ^ s <= round_shift m s <= m / 2 ^ s + 1.
Proof.
  unfold round_shift.
  destruct ((2 ^ s <? 2 * (m mod 2 ^ s)) ||
            ((2 ^ s =? 2 * (m mod 2 ^ s)) && Z.odd (m / 2 ^ s))); lia.
Qed.

Lemma binary_round_large (sx : bool) (p : positive) :
  53 < Zpos (digits2_pos p) ->
  binary_round prec emax sx p 0
  = let s := Zpos (digits2_pos p) - 53 in
    let m1 := round_shift (Zpos p) s in
    if m1 <? 2 ^ 53 then SF_of sx m1 s else SF_of sx (2 ^ 52) (s + 1).
Proof.
  intros Hd. cbv zeta.
  pose proof (shifted_mantissa p (Zpos (digits2_pos p) - 53) ltac:(lia) eq_refl) as Hq.
  pose proof (round_shift_bounds (Zpos p) (Zpos (digits2_pos p) - 53)) as Hm1.
  unfold binary_round. rewrite Z.add_0_r.
  assert (Hf : fexp prec emax (Zpos (digits2_pos p)) = Zpos (digits2_pos p) - 53).
  { unfold fexp, emin, prec, emax. lia. }
  rewrite Hf. unfold shl_align. rewrite Z.sub_0_r.
  destruct (Zpos (digits2_pos p) - 53) as [|k|k] eqn:Hk; try lia.
  unfold binary_round_aux, shr_fexp at 1.
  cbn [Zdigits2 shr_record_of_loc]. rewrite Z.add_0_r, Hf, Z.sub_0_r.
  cbn [shr]. rewrite round_after_shr by lia.
  set (m1 := round_shift (Zpos p) (Zpos k)) in *.
  rewrite Z.add_0_l.
  destruct (Z.ltb_spec m1 (2 ^ 53)) as [Hlt|Hge].
  - destruct m1 as [|m|m] eqn:Em; try lia.
    assert (Hdm : Zpos (digits2_pos m) = 53) by (apply digits2_unique; lia).
    unfold shr_fexp. cbn [Zdigits2 shr_record_of_loc]. rewrite Hdm.
    assert (Hf2 : fexp prec emax (53 + Zpos k) - Zpos k = 0).
    { unfold fexp, emin, prec, emax. lia. }
    rewrite Hf2. cbn [shr shr_m]. unfold SF_of. reflexivity.
  - assert (Em : m1 = 2 ^ 53) by lia. rewrite Em.
    unfold shr_fexp. cbn [Zdigits2 shr_record_of_loc].
    change (Zdigits2 (2 ^ 53)) with 54.
    assert (Hf2 : fexp prec emax (54 + Zpos k) - Zpos k = 1).
    { unfold fexp, emin, prec, emax. lia. }
    rewrite Hf2. cbn [shr iter_pos].
    change (shr_1 {| shr_m := 2 ^ 53; shr_r := false; shr_s := false |})
      with {| shr_m := 2 ^ 52; shr_r := false; shr_s := false |}.
    cbn [shr_m]. unfold SF_of. reflexivity.
Qed.

Lemma digits2_iter_xO (p k : positive) :
  digits2_pos (Pos.iter xO p k) = (digits2_pos p + k)%positive.
Proof.
  induction k as [|k IH] using Pos.peano_ind.
  - simpl. lia.
  - rewrite Pos.iter_succ. simpl. rewrite IH. lia.
Qed.

Lemma iter_xO_mul (p k : positive) :
  Zpos (Pos.iter xO p k) = Zpos p * 2 ^ Zpos k.
Proof.
  induction k as [|k IH] using Pos.peano_ind.
  - simpl. lia.
  - rewrite Pos.iter_succ. rewrite Pos2Z.inj_xO, IH, Pos2Z.inj_succ.
    rewrite Z.pow_succ_r by lia. lia.
Qed.

Lemma fexp_53 (e : Z) : -1074 <= e -> fexp prec emax (53 + e) = e.
Proof. intros H. unfold fexp, emin, prec, emax. lia. Qed.

Lemma binary_round_aux_exact (sx : bool) (m : positive) (e : Z) :
  Zpos (digits2_pos m) = 53 -> -1074 <= e <= 971 ->
  binary_round_aux prec emax sx (Zpos m) e loc_Exact = S754_finite sx m e.
Proof.
  intros Hd He. unfold binary_round_aux, shr_fexp.
  cbn [Zdigits2 shr_record_of_loc]. rewrite Hd, fexp_53 by lia.
  rewrite Z.sub_diag. cbn [shr shr_m loc_of_shr_record round_nearest_even].
  cbn [Zdigits2 shr_record_of_loc]. rewrite Hd, fexp_53 by lia.
  rewrite Z.sub_diag. cbn [shr shr_m].
  replace (e <=? emax - prec) with true; [reflexivity|].
  symmetry. apply Z.leb_le. unfold emax, prec. lia.
Qed.

(** The mantissa and the exponent of the binary64 value nearest to a
    positive integer. *)
Definition rnd (p : positive) : Z * Z :=
  let d := Zpos (digits2_pos p) in
  if d <=? 53 then (Zpos p * 2 ^ (53 - d), d - 53)
  else
    let m1 := round_shift (Zpos p) (d - 53) in
    if m1 <? 2 ^ 53 then (m1, d - 53) else (2 ^ 52, d - 52).

Lemma binary_round_rnd (sx : bool) (p : positive) :
  binary_round prec emax sx p 0 = SF_of sx (fst (rnd p)) (snd (rnd p)).
Proof.
  unfold rnd. cbv zeta.
  destruct (Z.leb_spec (Zpos (digits2_pos p)) 53) as [Hd|Hd].
  - cbn [fst snd]. unfold SF_of.
    replace (Zpos (digits2_pos p) - 53 <=? 971) with true
      by (symmetry; apply Z.leb_le; lia).
    unfold binary_round. rewrite Z.add_0_r.
    assert (Hf : fexp prec emax (Zpos (digits2_pos p)) = Zpos (digits2_pos p) - 53).
    { unfold fexp, emin, prec, emax. lia. }
    rewrite Hf. unfold shl_align. rewrite Z.sub_0_r.
    destruct (Zpos (digits2_pos p) - 53) as [|k|k] eqn:Hk; try lia.
    + replace (53 - Zpos (digits2_pos p)) with 0 by lia.
      rewrite Z.mul_1_r. cbn [Z.to_pos].
      apply binary_round_aux_exact; lia.
    + replace (53 - Zpos (digits2_pos p)) with (Zpos k) by lia.
      rewrite <- iter_xO_mul. cbn [Z.to_pos].
      apply binary_round_aux_exact; [|lia].
      rewrite digits2_iter_xO. lia.
  - rewrite binary_round_large by assumption. cbv zeta.
    destruct (round_shift (Zpos p) (Zpos (digits2_pos p) - 53) <? 2 ^ 53);
      cbn [fst snd]; [reflexivity|].
    replace (Zpos (digits2_pos p) - 53 + 1) with (Zpos (digits2_pos p) - 52) by lia.
    reflexivity.
Qed.

Lemma rnd_range (p : positive) :
  2 ^ 52 <= fst (rnd p) < 2 ^ 53 /\
  Zpos (digits2_pos p) - 53 <= snd (rnd p) <= Zpos (digits2_pos p) - 52.
Proof.
  unfold rnd. cbv zeta. destruct (digits2_bounds p) as [Dlo Dhi].
  destruct (Z.leb_spec (Zpos (digits2_pos p)) 53) as [Hd|Hd]; cbn [fst snd].
  - split; [|lia].
    assert (HT : 0 < 2 ^ (53 - Zpos (digits2_pos p))) by (apply Z.pow_pos_nonneg; lia).
    assert (H52 : 2 ^ 52 = 2 ^ (Zpos (digits2_pos p) - 1) * 2 ^ (53 - Zpos (digits2_pos p))).
    { rewrite <- Z.pow_add_r by lia. f_equal. lia. }
    assert (H53 : 2 ^ 53 = 2 ^ Zpos (digits2_pos p) * 2 ^ (53 - Zpos (digits2_pos p))).
    { rewrite <- Z.pow_add_r by lia. f_equal. lia. }
    rewrite H52, H53. split.
    + apply Z.mul_le_mono_nonneg_r; lia.
    + apply Z.mul_lt_mono_pos_r; lia.
  - pose proof (shifted_mantissa p (Zpos (digits2_pos p) - 53) ltac:(lia) eq_refl) as Hq.
    pose proof (round_shift_bounds (Zpos p) (Zpos (digits2_pos p) - 53)) as Hm1.
    destruct (Z.ltb_spec (round_shift (Zpos p) (Zpos (digits2_pos p) - 53)) (2 ^ 53));
      cbn [fst snd]; lia.
Qed.

Lemma round_shift_mono (a b s : Z) :
  0 <= s -> a <= b -> round_shift a s <= round_shift b s.
Proof.
  intros Hs Hab. unfold round_shift.
  assert (HT : 0 < 2 ^ s) by (apply Z.pow_pos_nonneg; lia).
  set (T := 2 ^ s) in *.
  pose proof (Z.div_mod a T ltac:(lia)) as Ha.
  pose proof (Z.div_mod b T ltac:(lia)) as Hb.
  pose proof (Z.mod_pos_bound a T HT) as Hra.
  pose proof (Z.mod_pos_bound b T HT) as Hrb.
  assert (Hq : a / T <= b / T) by (apply Z.div_le_mono; lia).
  destruct (Z.eq_dec (a / T) (b / T)) as [He|Hne].
  - rewrite He in *. assert (Hr : a mod T <= b mod T) by lia.
    destruct (Z.ltb_spec T (2 * (a mod T))), (Z.eqb_spec T (2 * (a mod T))),
      (Z.ltb_spec T (2 * (b mod T))), (Z.eqb_spec T (2 * (b mod T)));
      cbn [orb andb]; try lia; destruct (Z.odd (b / T)); lia.
  - destruct ((T <? 2 * (a mod T)) || ((T =? 2 * (a mod T)) && Z.odd (a / T)));
      destruct ((T <? 2 * (b mod T)) || ((T =? 2 * (b mod T)) && Z.odd (b / T)));
      lia.
Qed.

Lemma digits2_mono (p q : positive) :
  (p <= q)%positive -> Zpos (digits2_pos p) <= Zpos (digits2_pos q).
Proof.
  intros H. destruct (digits2_bounds p) as [Hlo _].
  destruct (digits2_bounds q) as [_ Hhi].
  destruct (Z.le_gt_cases (Zpos (digits2_pos p)) (Zpos (digits2_pos q)))
    as [|Hgt]; [assumption|].
  assert (2 ^ Zpos (digits2_pos q) <= 2 ^ (Zpos (digits2_pos p) - 1))
    by (apply Z.pow_le_mono_r; lia).
  lia.
Qed.

(** Rounding keeps the order: exponents first, then mantissas. *)
Lemma rnd_mono (p q : positive) :
  (p <= q)%positive ->
  snd (rnd p) < snd (rnd q) \/
  (snd (rnd p) = snd (rnd q) /\ fst (rnd p) <= fst (rnd q)).
Proof.
  intros Hpq. pose proof (digits2_mono p q Hpq) as Hd.
  destruct (rnd_range p) as [Hmp Hep]. destruct (rnd_range q) as [Hmq Heq].
  destruct (Z.lt_ge_cases (snd (rnd p)) (snd (rnd q))) as [|Hge]; [auto|].
  right. revert Hmp Hep Hmq Heq Hge. unfold rnd. cbv zeta.
  destruct (Z.leb_spec (Zpos (digits2_pos p)) 53) as [Hp|Hp];
    destruct (Z.leb_spec (Zpos (digits2_pos q)) 53) as [Hq|Hq]; cbn [fst snd].
  - intros _ _ _ _ Hge. assert (He : Zpos (digits2_pos p) = Zpos (digits2_pos q)) by lia.
    split; [lia|]. rewrite He.
    apply Z.mul_le_mono_nonneg_r; [apply Z.pow_nonneg; lia | lia].
  - destruct (round_shift (Zpos q) (Zpos (digits2_pos q) - 53) <? 2 ^ 53);
      cbn [fst snd]; lia.
  - destruct (round_shift (Zpos p) (Zpos (digits2_pos p) - 53) <? 2 ^ 53);
      cbn [fst snd]; lia.
  - pose proof (round_shift_mono (Zpos p) (Zpos q) (Zpos (digits2_pos p) - 53)
                  ltac:(lia) ltac:(lia)) as Hm.
    pose proof (round_shift_bounds (Zpos q) (Zpos (digits2_pos q) - 53)) as Hbq.
    pose proof (shifted_mantissa q (Zpos (digits2_pos q) - 53) ltac:(lia) eq_refl) as Hsq.
    destruct (Z.ltb_spec (round_shift (Zpos p) (Zpos (digits2_pos p) - 53)) (2 ^ 53));
      destruct (Z.ltb_spec (round_shift (Zpos q) (Zpos (digits2_pos q) - 53)) (2 ^ 53));
      cbn [fst snd]; intros Hmp Hep Hmq Heq Hge;
      (destruct (Z.eq_dec (Zpos (digits2_pos p)) (Zpos (digits2_pos q)))
         as [He|Hne]; [rewrite He in *|]); lia.
Qed.

Lemma SF_of_valid (sx : bool) (m e : Z) :
  2 ^ 52 <= m < 2 ^ 53 -> -1074 <= e ->
  SpecFloat.valid_binary prec emax (SF_of sx m e) = true.
Proof.
  intros Hm He. unfold SF_of.
  destruct (Z.leb_spec e 971) as [Hle|Hgt]; [|reflexivity].
  cbn [SpecFloat.valid_binary]. unfold bounded, canonical_mantissa.
  assert (Hd : Zpos (digits2_pos (Z.to_pos m)) = 53).
  { apply digits2_unique. rewrite Z2Pos.id by lia. lia. }
  rewrite Hd, fexp_53 by lia. rewrite Z.eqb_refl. simpl.
  apply Z.leb_le. unfold emax, prec. lia.
Qed.

Lemma normalize_valid (n : Z) :
  SpecFloat.valid_binary prec emax (binary_normalize prec emax n 0 false) = true.
Proof.
  destruct n as [|p|p]; cbn [binary_normalize]; [reflexivity| |];
    rewrite binary_round_rnd; destruct (rnd_range p) as [Hm He];
    apply SF_of_valid; lia.
Qed.

Lemma float_of_int_spec (n : Z) :
  Prim2SF (float_of_int n) = binary_normalize prec emax n 0 false.
Proof. apply Prim2SF_SF2Prim, normalize_valid. Qed.

Lemma SF_of_le (m1 e1 m2 e2 : Z) :
  2 ^ 52 <= m1 < 2 ^ 53 -> 2 ^ 52 <= m2 < 2 ^ 53 ->
  e1 < e2 \/ (e1 = e2 /\ m1 <= m2) ->
  SFleb (SF_of false m1 e1) (SF_of false m2 e2) = true /\
  SFleb (SF_of true m2 e2) (SF_of true m1 e1) = true.
Proof.
  intros H1 H2 Hle. unfold SF_of.
  destruct (Z.leb_spec e1 971), (Z.leb_spec e2 971); try lia;
    unfold SFleb, SFcompare; try (split; reflexivity).
  change (Pos.compare_cont Eq) with Pos.compare.
  destruct (Z.compare_spec e1 e2), (Z.compare_spec e2 e1); try lia;
    try (split; reflexivity).
  destruct (Pos.compare_spec (Z.to_pos m1) (Z.to_pos m2)),
           (Pos.compare_spec (Z.to_pos m2) (Z.to_pos m1));
    try (split; reflexivity); exfalso; lia.
Qed.

Lemma normalize_mono (a b : Z) :
  a <= b ->
  SFleb (binary_normalize prec emax a 0 false)
        (binary_normalize prec emax b 0 false) = true.
Proof.
  intros Hab.
  destruct a as [|p|p], b as [|q|q]; try lia; cbn [binary_normalize];
    rewrite ?binary_round_rnd; try reflexivity.
  - unfold SF_of. destruct (snd (rnd q) <=? 971); reflexivity.
  - destruct (rnd_range p) as [Hmp _]. destruct (rnd_range q) as [Hmq _].
    apply (SF_of_le _ _ _ _ Hmp Hmq). apply rnd_mono. lia.
  - unfold SF_of. destruct (snd (rnd p) <=? 971); reflexivity.
  - unfold SF_of.
    destruct (snd (rnd p) <=? 971), (snd (rnd q) <=? 971); reflexivity.
  - destruct (rnd_range p) as [Hmp _]. destruct (rnd_range q) as [Hmq _].
    apply (SF_of_le _ _ _ _ Hmq Hmp). apply rnd_mono. lia.
Qed.

Lemma float_of_int_mono (a b : Z) :
  a <= b -> PrimFloat.leb (float_of_int a) (float_of_int b) = true.
Proof.
  intros Hab. rewrite leb_spec, !float_of_int_spec.
  apply normalize_mono. assumption.
Qed.

Lemma float_no_overflow (n : Z) :
  Z.abs n < 2 ^ 1023 -> float_overflows n = false.
Proof.
  intros Hn. unfold float_overflows.
  destruct n as [|p|p]; cbn [binary_normalize]; [reflexivity| |];
    rewrite binary_round_rnd; unfold SF_of;
    destruct (rnd_range p) as [_ He];
    assert (Hd : Zpos (digits2_pos p) <= 1023)
      by (destruct (digits2_bounds p) as [Hlo _];
          destruct (Z.le_gt_cases (Zpos (digits2_pos p)) 1023) as [|Hgt];
          [assumption|];
          assert (2 ^ 1023 <= 2 ^ (Zpos (digits2_pos p) - 1))
            by (apply Z.pow_le_mono_r; lia);
          simpl Z.abs in Hn; lia);
    destruct (Z.leb_spec (snd (rnd p)) 971); [reflexivity | lia | reflexivity | lia].
Qed.


(** [a <= b] gives [float(a) <= float(b)], and so [float(a)] is never
    followed by a greater [float(b)] when [b <= a]. *)
Lemma float_of_int_ltb (a b : Z) :
  b <= a -> PrimFloat.ltb (float_of_int a) (float_of_int b) = false.
Proof.
  intros Hab. apply FloatOrder.leb_not_ltb, float_of_int_mono. assumption.
Qed.

Lemma py_float_ok (n : Z) :
  float_overflows n = false -> py_float n = Ok (float_of_int n).
Proof. intros H. unfold py_float. rewrite H. reflexivity. Qed.

Lemma py_float_inv (n : Z) (x : float) :
  py_float n = Ok x -> x = float_of_int n.
Proof.
  unfold py_float. destruct (float_overflows n); [discriminate|].
  intros H. injection H as <-. reflexivity.
Qed.

End IntToFloat.

(* ================================================================== *)
(** ** The similarity lookup *)

Lemma list_index_absent (x : Z) (l : list Z) :
  ~ In x l -> list_index x l = Raise ValueError.
Proof.
  induction l as [|y l IH]; simpl; intros H; [reflexivity|].
  destruct (Z.eqb_spec y x) as [->|Hne]; [tauto|].
  rewrite IH by tauto. reflexivity.
Qed.

Lemma list_index_present (x : Z) (l : list Z) :
  In x l -> exists i, list_index x l = Ok i /\ nth_error l i = Some x.
Proof.
  induction l as [|y l IH]; simpl; intros H; [contradiction|].
  destruct (Z.eqb_spec y x) as [->|Hne].
  - exists 0%nat. auto.
  - destruct IH as (i & Hi & Hn); [tauto|].
    exists (S i). rewrite Hi. auto.
Qed.

Lemma get_similar_articles_absent `{NumericLibrary}
    (d : recommender) (article_id top_k : Z) :
  ~ In article_id (article_ids d) ->
  get_similar_articles d article_id top_k = Ok [].
Proof.
  intros Hnot. unfold get_similar_articles.
  rewrite list_index_absent by assumption. reflexivity.
Qed.

Lemma try_except_ok {A : Type} (m h : exc A) (a : A) :
  try_except_ValueError m h = Ok a -> m = Ok a \/ (m = Raise ValueError /\ h = Ok a).
Proof.
  destruct m as [x|[]]; simpl; auto; discriminate.
Qed.

(** What a successful lookup returns: the identifiers and scores at the
    positions [argsort(similarities)[::-1][1:top_k+1]]. *)
Lemma get_similar_articles_ok `{NumericLibrary}
    (d : recommender) (article_id top_k : Z) (r : list (Z * score)) :
  get_similar_articles d article_id top_k = Ok r ->
  r = [] \/
  exists article_idx article_embedding,
    list_index article_id (article_ids d) = Ok article_idx /\
    subscript (embeddings d) article_idx = Ok article_embedding /\
    let similarities := cosine_similarity article_embedding (embeddings d) in
    Forall2 (fun idx p => nth_error (article_ids d) idx = Some (fst p) /\
                          nth_error similarities idx = Some (snd p))
            (py_slice 1 (top_k + 1) (rev (argsort similarities))) r.
Proof.
  unfold get_similar_articles. intros Hr.
  apply try_except_ok in Hr. destruct Hr as [Hr|[_ Hr]].
  2:{ left. congruence. }
  right.
  apply bind_ok in Hr. destruct Hr as (idx & Hidx & Hr).
  apply bind_ok in Hr. destruct Hr as (emb & Hemb & Hr).
  exists idx, emb. split; [assumption|]. split; [assumption|].
  cbv zeta. apply mapM_ok in Hr.
  eapply Forall2_impl; [|exact Hr].
  intros i [a s] Hi. cbv beta in Hi.
  apply bind_ok in Hi. destruct Hi as (a' & Ha & Hi).
  apply bind_ok in Hi. destruct Hi as (s' & Hs & Hi).
  injection Hi as <- <-. unfold subscript in Ha, Hs. simpl.
  destruct (nth_error (article_ids d) i); [|discriminate].
  destruct (nth_error _ i); [|discriminate].
  split; congruence.
Qed.

(** The lookup never returns more than [top_k] neighbours. *)
Lemma get_similar_articles_length `{NumericLibrary}
    (d : recommender) (article_id top_k : Z) (r : list (Z * score)) :
  0 <= top_k ->
  get_similar_articles d article_id top_k = Ok r ->
  Z.of_nat (List.length r) <= top_k.
Proof.
  intros Hk Hr. apply get_similar_articles_ok in Hr.
  destruct Hr as [->|(idx & emb & _ & _ & HF)]; [simpl; lia|].
  cbv zeta in HF. apply Forall2_length_eq in HF. rewrite HF.
  apply py_slice_from_1_length. assumption.
Qed.

(** Only a [IndexError] can escape the lookup, and only from a store whose
    identifier list and matrix are not aligned. *)
Lemma get_similar_articles_raise `{NumericLibrary}
    (d : recommender) (article_id top_k : Z) (e : exn) :
  get_similar_articles d article_id top_k = Raise e -> e = IndexError.
Proof.
  unfold get_similar_articles.
  assert (Hidx : forall r, list_index article_id (article_ids d) = Raise r ->
                           r = ValueError).
  { induction (article_ids d) as [|y l IH]; simpl; intros r Hr; [congruence|].
    destruct (Z.eqb y article_id); [discriminate|].
    destruct (list_index article_id l) as [i|r']; simpl in Hr;
      [discriminate|]. apply IH. congruence. }
  assert (Hsub : forall (A : Type) (l : list A) i r,
             subscript l i = Raise r -> r = IndexError).
  { intros A l i r. unfold subscript. destruct (nth_error l i); congruence. }
  destruct (list_index article_id (article_ids d)) as [idx|r] eqn:Hi; simpl.
  2:{ rewrite (Hidx r eq_refl). simpl. discriminate. }
  destruct (subscript (embeddings d) idx) as [emb|r] eqn:He; simpl.
  2:{ rewrite (Hsub _ _ _ _ He). simpl. congruence. }
  generalize (py_slice 1 (top_k + 1)
                (rev (argsort (cosine_similarity emb (embeddings d))))).
  intros idxs.
  assert (Hmap : forall r,
             mapM (fun idx0 =>
                     aid <- subscript (article_ids d) idx0 ;;
                     sim <- subscript (cosine_similarity emb (embeddings d)) idx0 ;;
                     Ok (aid, sim)) idxs = Raise r -> r = IndexError).
  { induction idxs as [|i idxs IH]; simpl; intros r Hr; [discriminate|].
    destruct (subscript (article_ids d) i) as [a|r1] eqn:Ha; simpl in Hr;
      [|apply Hsub in Ha; congruence].
    destruct (subscript (cosine_similarity emb (embeddings d)) i) as [x|r2] eqn:Hx;
      simpl in Hr; [|apply Hsub in Hx; congruence].
    destruct (mapM _ idxs) as [ys|r3]; simpl in Hr; [discriminate|].
    apply IH. congruence. }
  destruct (mapM _ idxs) as [ys|r]; simpl; [discriminate|].
  rewrite (Hmap r eq_refl). simpl. congruence.
Qed.

(* ================================================================== *)
(** ** The dictionary of candidate scores *)

Lemma dict_iadd_keys (d : scores_dict) (k : Z) (s : score) :
  map fst (dict_iadd d k s) = map fst d.
Proof.
  induction d as [|[k' v] d IH]; simpl; [reflexivity|].
  destruct (Z.eqb k' k); simpl; congruence.
Qed.

Lemma add_score_keys (d : scores_dict) (k : Z) (s : score) :
  map fst (add_score d k s) =
  if dict_has k d then map fst d else map fst d ++ [k].
Proof.
  unfold add_score. rewrite dict_iadd_keys.
  destruct (dict_has k d); [reflexivity|].
  rewrite map_app. reflexivity.
Qed.

Lemma add_score_NoDup (d : scores_dict) (k : Z) (s : score) :
  NoDup (map fst d) -> NoDup (map fst (add_score d k s)).
Proof.
  intros Hnd. rewrite add_score_keys. unfold dict_has.
  destruct (py_in k (map fst d)) eqn:Hk; [assumption|].
  apply py_in_false in Hk.
  apply NoDup_app; [assumption | repeat constructor; simpl; tauto |].
  intros x Hx [<-|[]]. contradiction.
Qed.

Lemma add_score_In (d : scores_dict) (k : Z) (s : score) (x : Z) :
  In x (map fst (add_score d k s)) <-> In x (map fst d) \/ x = k.
Proof.
  rewrite add_score_keys. unfold dict_has.
  destruct (py_in k (map fst d)) eqn:Hk.
  - apply py_in_true in Hk. split; [tauto|]. intros [Hx|Hx]; subst; assumption.
  - rewrite in_app_iff. simpl. intuition congruence.
Qed.

(** What the inner loop maintains: keys are distinct, and none of them is
    in the user's history. *)
Definition candidates_ok (user_history : list Z) (d : scores_dict) : Prop :=
  NoDup (map fst d) /\ forall x, In x (map fst d) -> ~ In x user_history.

Lemma accumulate_ok (user_history : list Z) (similar : list (Z * score))
    (d : scores_dict) :
  candidates_ok user_history d ->
  candidates_ok user_history (accumulate user_history d similar).
Proof.
  unfold accumulate. revert d.
  induction similar as [|[k s] similar IH]; simpl; intros d Hd; [assumption|].
  apply IH. destruct (py_in k user_history) eqn:Hk; [assumption|].
  apply py_in_false in Hk. destruct Hd as [Hnd Hout]. split.
  - apply add_score_NoDup. assumption.
  - intros x Hx. apply add_score_In in Hx. destruct Hx as [Hx|Hx]; subst; auto.
Qed.

(** Neighbours that are all in the history leave the dictionary as it is. *)
Lemma accumulate_all_read (user_history : list Z) (similar : list (Z * score))
    (d : scores_dict) :
  (forall p, In p similar -> In (fst p) user_history) ->
  accumulate user_history d similar = d.
Proof.
  unfold accumulate. revert d.
  induction similar as [|p similar IH]; simpl; intros d Hall; [reflexivity|].
  assert (Hp : py_in (fst p) user_history = true)
    by (apply py_in_true; apply Hall; auto).
  rewrite Hp. apply IH. intros q Hq. apply Hall. auto.
Qed.

Lemma collect_ok `{NumericLibrary} (d : recommender) (user_history seeds : list Z)
    (scores result : scores_dict) :
  candidates_ok user_history scores ->
  collect d user_history seeds scores = Ok result ->
  candidates_ok user_history result.
Proof.
  revert scores. induction seeds as [|a seeds IH]; simpl; intros scores Hs Hr.
  - injection Hr as <-. assumption.
  - apply bind_ok in Hr. destruct Hr as (sim & _ & Hr).
    eapply IH; [|exact Hr]. apply accumulate_ok. assumption.
Qed.

Lemma collect_nothing `{NumericLibrary} (d : recommender)
    (user_history seeds : list Z) (scores : scores_dict) :
  (forall seed, In seed seeds ->
     exists r, get_similar_articles d seed 20 = Ok r /\
               forall p, In p r -> In (fst p) user_history) ->
  collect d user_history seeds scores = Ok scores.
Proof.
  revert scores. induction seeds as [|a seeds IH]; simpl; intros scores Hall.
  - reflexivity.
  - destruct (Hall a (or_introl eq_refl)) as (r & -> & Hr). simpl.
    rewrite accumulate_all_read by assumption.
    apply IH. intros seed Hseed. apply Hall. auto.
Qed.

(** ** The stable descending sort *)

Lemma insert_desc_perm (x : Z * score) (l : list (Z * score)) :
  Permutation (insert_desc x l) (x :: l).
Proof.
  induction l as [|y l IH]; simpl; [reflexivity|].
  destruct (PrimFloat.ltb (snd x) (snd y)); [|reflexivity].
  rewrite IH. apply perm_swap.
Qed.

Lemma sorted_desc_perm (l : list (Z * score)) : Permutation (sorted_desc l) l.
Proof.
  induction l as [|x l IH]; simpl; [reflexivity|].
  rewrite insert_desc_perm. constructor. assumption.
Qed.

(** No entry is followed by one with a strictly greater score. *)
Definition not_before (a b : Z * score) : Prop :=
  PrimFloat.ltb (snd a) (snd b) = false.

Lemma insert_desc_sorted (x : Z * score) (l : list (Z * score)) :
  Sorted not_before l -> Sorted not_before (insert_desc x l).
Proof.
  induction l as [|y l IH]; simpl; intros Hs.
  - repeat constructor.
  - destruct (PrimFloat.ltb (snd x) (snd y)) eqn:Hxy.
    + inversion Hs as [|? ? Hs' Hd]; subst. constructor; [auto|].
      destruct l as [|z l]; simpl.
      * constructor. apply FloatOrder.ltb_asym. assumption.
      * destruct (PrimFloat.ltb (snd x) (snd z)).
        -- inversion Hd; subst. constructor. assumption.
        -- constructor. apply FloatOrder.ltb_asym. assumption.
    + constructor; [assumption|]. constructor. assumption.
Qed.

Lemma sorted_desc_sorted (l : list (Z * score)) : Sorted not_before (sorted_desc l).
Proof.
  induction l as [|x l IH]; simpl; [constructor|].
  apply insert_desc_sorted. assumption.
Qed.

(** On scores that are not NaN, "never followed by a greater one" is the
    descending order. *)
Lemma not_before_descending (l : list (Z * score)) :
  Sorted not_before l ->
  Forall (fun p => FloatOrder.not_nan (snd p)) l ->
  descending (map snd l).
Proof.
  intros Hs Hn. unfold descending.
  apply Sorted_StronglySorted.
  { intros a b c Hab Hbc. unfold score_ge in *.
    eapply FloatOrder.leb_trans; eassumption. }
  induction Hs as [|x l Hs IH Hd]; simpl; [constructor|].
  inversion Hn as [|? ? Hx Hl]; subst.
  constructor; [auto|].
  destruct Hd as [|y l Hxy]; simpl; constructor.
  inversion Hl; subst. unfold score_ge.
  apply FloatOrder.not_ltb_leb; assumption.
Qed.

(* ================================================================== *)
(** ** Enrichment *)

(** The enrichment loop keeps the ranked identifiers and scores, whatever
    catalog lookup [info_of] it uses, as long as the lookup returns the
    identifier it was asked for. *)
Lemma enrich_loop_ok (info_of : Z -> exc article_info)
    (ranked : list (Z * score)) (l : list recommendation) :
  (forall a i, info_of a = Ok i -> info_article_id i = a) ->
  mapM (fun p => article_info <- info_of (fst p) ;;
                 Ok {| rec_info := article_info; recommendation_score := snd p |})
       ranked = Ok l ->
  map rec_article_id l = map fst ranked /\
  map recommendation_score l = map snd ranked.
Proof.
  intros Hid Hl. apply mapM_ok in Hl.
  split; eapply Forall2_map_eq; try exact Hl; cbv beta;
    intros p r Hr; apply bind_ok in Hr; destruct Hr as (i & Hi & Hr);
    injection Hr as <-; simpl; [|reflexivity].
  unfold rec_article_id. simpl. eauto.
Qed.

Lemma engine_info_id (d : recommender) (a : Z) (i : article_info) :
  Engine._get_article_info d a = Ok i -> info_article_id i = a.
Proof.
  unfold Engine._get_article_info.
  destruct (find_row (articles_metadata d) a) as [row|].
  - intros H. apply bind_ok in H. destruct H as (w & _ & H).
    injection H as <-. reflexivity.
  - intros H. injection H as <-. reflexivity.
Qed.

Lemma function_app_info_id (d : recommender) (a : Z) (i : article_info) :
  FunctionApp.get_article_info d a = Ok i -> info_article_id i = a.
Proof.
  unfold FunctionApp.get_article_info.
  destruct (find_row (articles_metadata d) a) as [row|].
  - intros H. apply bind_ok in H. destruct H as (c & _ & H).
    apply bind_ok in H. destruct H as (w & _ & H).
    injection H as <-. reflexivity.
  - intros H. injection H as <-. reflexivity.
Qed.

(** A catalog in which no [words_count] cell is empty. *)
Definition words_counted (metadata : list meta_row) : Prop :=
  forall row, In row metadata -> row_words_count row <> Some NaN.

(** A catalog in which no [category_id] cell is empty either. *)
Definition categories_known (metadata : list meta_row) : Prop :=
  forall row, In row metadata -> row_category_id row <> Some NaN.

Lemma find_row_In (metadata : list meta_row) (a : Z) (row : meta_row) :
  find_row metadata a = Some row -> In row metadata /\ row_article_id row = a.
Proof.
  unfold find_row. intros H. apply find_some in H.
  destruct H as [Hin Heq]. apply Z.eqb_eq in Heq. auto.
Qed.

Lemma engine_info_total (d : recommender) (a : Z) :
  words_counted (articles_metadata d) ->
  exists i, Engine._get_article_info d a = Ok i.
Proof.
  intros Hw. unfold Engine._get_article_info.
  destruct (find_row (articles_metadata d) a) as [row|] eqn:Hrow;
    [|eexists; reflexivity].
  apply find_row_In in Hrow. destruct Hrow as [Hin _].
  specialize (Hw row Hin).
  destruct (row_words_count row) as [[|w]|]; simpl;
    try (eexists; reflexivity). congruence.
Qed.

Lemma function_app_info_total (d : recommender) (a : Z) :
  words_counted (articles_metadata d) ->
  categories_known (articles_metadata d) ->
  exists i, FunctionApp.get_article_info d a = Ok i.
Proof.
  intros Hw Hc. unfold FunctionApp.get_article_info.
  destruct (find_row (articles_metadata d) a) as [row|] eqn:Hrow;
    [|eexists; reflexivity].
  apply find_row_In in Hrow. destruct Hrow as [Hin _].
  specialize (Hw row Hin). specialize (Hc row Hin).
  destruct (row_category_id row) as [[|c]|]; simpl; try congruence;
    destruct (row_words_count row) as [[|w]|]; simpl;
    try (eexists; reflexivity); congruence.
Qed.

Lemma enrich_loop_total (info_of : Z -> exc article_info)
    (ranked : list (Z * score)) :
  (forall a, exists i, info_of a = Ok i) ->
  exists l,
    mapM (fun p => article_info <- info_of (fst p) ;;
                   Ok {| rec_info := article_info; recommendation_score := snd p |})
         ranked = Ok l.
Proof.
  intros Htot. apply mapM_total. intros p _.
  destruct (Htot (fst p)) as (i & ->). simpl. eexists; reflexivity.
Qed.

(* ================================================================== *)
(** ** Popularity counts *)

Lemma insert_count_perm (x : Z * Z) (l : list (Z * Z)) :
  Permutation (insert_count x l) (x :: l).
Proof.
  induction l as [|y l IH]; simpl; [reflexivity|].
  destruct (snd x <? snd y); [|reflexivity].
  rewrite IH. apply perm_swap.
Qed.

Lemma value_counts_perm (l : list Z) :
  Permutation (value_counts l) (map (fun x => (x, occurrences x l)) (unique l)).
Proof.
  unfold value_counts.
  induction (map (fun x => (x, occurrences x l)) (unique l)) as [|p ps IH];
    simpl; [reflexivity|].
  rewrite insert_count_perm. constructor. assumption.
Qed.

Lemma value_counts_keys (l : list Z) :
  Permutation (map fst (value_counts l)) (unique l).
Proof.
  rewrite (Permutation_map fst (value_counts_perm l)).
  rewrite map_map. simpl. rewrite map_id. reflexivity.
Qed.

Lemma value_counts_NoDup (l : list Z) : NoDup (map fst (value_counts l)).
Proof.
  eapply Permutation_NoDup; [symmetry; apply value_counts_keys|].
  apply unique_NoDup.
Qed.

(** Every row of the ranking is an item of the log with its number of
    occurrences, and every item of the log has a row. *)
Lemma value_counts_In (l : list Z) (x c : Z) :
  In (x, c) (value_counts l) <-> In x l /\ c = occurrences x l.
Proof.
  split.
  - intros H. apply (Permutation_in _ (value_counts_perm l)) in H.
    apply in_map_iff in H. destruct H as (y & Hy & Hin).
    injection Hy as Hx Hc. subst. apply (proj1 (unique_In _ _)) in Hin. auto.
  - intros [Hin ->].
    apply (Permutation_in _ (Permutation_sym (value_counts_perm l))).
    apply in_map_iff. exists x. split; [reflexivity|].
    apply unique_In. assumption.
Qed.



Lemma occurrences_bounds (x : Z) (l : list Z) :
  0 <= occurrences x l <= Z.of_nat (List.length l).
Proof.
  unfold occurrences. pose proof (filter_length_le (Z.eqb x) l). lia.
Qed.

(** Integer counts in descending order give descending scores. *)
Lemma descending_of_counts (counts : list Z) :
  descending_counts counts ->
  descending (map float_of_int counts).
Proof.
  unfold descending, descending_counts.
  induction 1 as [|c cs Hs IH Hc]; simpl; constructor; auto.
  rewrite Forall_forall in *. intros y Hy.
  apply in_map_iff in Hy. destruct Hy as (c' & <- & Hc').
  unfold score_ge. specialize (Hc c' Hc').
  apply IntToFloat.float_of_int_mono. lia.
Qed.

(** A list in which every score is at least every later one is one in
    which no score is followed by a greater one. *)
Lemma descending_sorted (scores : list score) :
  descending scores -> sorted_descending scores.
Proof.
  intros H. apply StronglySorted_Sorted in H.
  unfold sorted_descending. induction H as [|a l Hl IH Ha]; constructor; auto.
  destruct Ha as [|b l Hab]; constructor.
  apply FloatOrder.leb_not_ltb. exact Hab.
Qed.

(** Conversely, among scores that are not NaN the two notions agree. *)
Lemma sorted_descending_total (scores : list score) :
  Forall FloatOrder.not_nan scores ->
  sorted_descending scores -> descending scores.
Proof.
  intros Hn Hs. unfold descending.
  apply Sorted_StronglySorted.
  { intros a b c Hab Hbc. unfold score_ge in *.
    eapply FloatOrder.leb_trans; eassumption. }
  induction Hs as [|x l Hs IH Hd]; [constructor|].
  inversion Hn as [|? ? Hx Hl]; subst.
  constructor; [auto|].
  destruct Hd as [|y l Hxy]; constructor.
  inversion Hl; subst. unfold score_ge.
  apply FloatOrder.not_ltb_leb; assumption.
Qed.

(* ================================================================== *)
(** ** The ranked candidates of the similarity path *)

Lemma sorted_recommendations_ok `{NumericLibrary} (d : recommender)
    (user_history : list Z) (top_n : Z) (ranked : list (Z * score)) :
  sorted_recommendations d user_history top_n = Ok ranked ->
  NoDup (map fst ranked) /\
  (forall x, In x (map fst ranked) -> ~ In x user_history) /\
  Sorted not_before ranked /\
  (0 <= top_n -> Z.of_nat (List.length ranked) <= top_n).
Proof.
  unfold sorted_recommendations. intros Hr.
  apply bind_ok in Hr. destruct Hr as (scores & Hc & Hr).
  injection Hr as <-.
  apply collect_ok in Hc; [|split; [constructor | intros x []]].
  destruct Hc as [Hnd Hout].
  destruct (py_prefix_firstn top_n (sorted_desc scores)) as (k & Hk).
  pose proof (sorted_desc_perm scores) as Hp.
  repeat split.
  - rewrite Hk, <- firstn_map. apply firstn_NoDup.
    eapply Permutation_NoDup; [|exact Hnd].
    apply Permutation_map. symmetry. assumption.
  - intros x Hx. apply Hout. rewrite Hk, <- firstn_map in Hx.
    apply firstn_In in Hx.
    eapply Permutation_in; [|exact Hx]. apply Permutation_map. assumption.
  - rewrite Hk. apply firstn_Sorted. apply sorted_desc_sorted.
  - apply py_prefix_length.
Qed.

(** ** The fallback loops *)

(** [from, from - 1, ...], [k] values. *)
Fixpoint countdown (from : Z) (k : nat) : list Z :=
  match k with
  | O => []
  | S k' => from :: countdown (from - 1) k'
  end.

Lemma countdown_bounds (from : Z) (k : nat) (x : Z) :
  In x (countdown from k) -> from - Z.of_nat k < x <= from.
Proof.
  revert from; induction k as [|k IH]; simpl; intros from; [tauto|].
  intros [<-|Hx]; [lia|]. apply IH in Hx. lia.
Qed.

Lemma countdown_descending (from : Z) (k : nat) :
  descending_counts (countdown from k).
Proof.
  unfold descending_counts.
  revert from; induction k as [|k IH]; simpl; intros from; constructor; auto.
  rewrite Forall_forall. intros x Hx. apply countdown_bounds in Hx. lia.
Qed.

Lemma countdown_length (from : Z) (k : nat) : List.length (countdown from k) = k.
Proof. revert from; induction k; simpl; intros; auto. Qed.

(** The scores [float(from)], [float(from - 1)], ... of a fallback loop
    exist when none of the integers is beyond the range of [float]. *)
Definition representable (ranks : list Z) : Prop :=
  forall k, In k ranks -> float_overflows k = false.


Lemma countdown_small (top_n : Z) (k : nat) :
  Z.abs top_n + Z.of_nat k < 2 ^ 1023 -> representable (countdown top_n k).
Proof.
  intros Hn x Hx. apply countdown_bounds in Hx.
  apply IntToFloat.float_no_overflow. lia.
Qed.


Lemma engine_first_articles_total (top_n done : Z) (rows : list meta_row) :
  words_counted rows ->
  representable (countdown (top_n - done) (List.length rows)) ->
  exists l, Engine.first_articles top_n done rows = Ok l.
Proof.
  revert done; induction rows as [|row rows IH]; simpl; intros done Hw Hf.
  - eexists; reflexivity.
  - assert (Hrow : row_words_count row <> Some NaN) by (apply Hw; simpl; auto).
    rewrite (IntToFloat.py_float_ok (top_n - done)) by (apply Hf; simpl; auto).
    destruct (IH (done + 1)) as (rest & ->).
    { intros r Hr. apply Hw. simpl. auto. }
    { intros k Hk. apply Hf. right.
      replace (top_n - done - 1) with (top_n - (done + 1)) by lia. exact Hk. }
    destruct (row_words_count row) as [[|w]|]; simpl;
      try (eexists; reflexivity). congruence.
Qed.

Lemma function_app_first_articles_ok (d : recommender) (top_n i : Z)
    (ids : list Z) (l : list recommendation) :
  FunctionApp.first_articles d top_n i ids = Ok l ->
  map rec_article_id l = ids /\
  map recommendation_score l =
    map float_of_int (countdown (top_n - i) (List.length ids)).
Proof.
  revert i l; induction ids as [|a ids IH]; simpl; intros i l Hl.
  - injection Hl as <-. auto.
  - apply bind_ok in Hl. destruct Hl as (info & Hinfo & Hl).
    apply bind_ok in Hl. destruct Hl as (x & Hx & Hl).
    apply bind_ok in Hl. destruct Hl as (rest & Hrest & Hl).
    injection Hl as <-. apply IH in Hrest. destruct Hrest as [Hids Hsc].
    apply IntToFloat.py_float_inv in Hx. subst x.
    simpl. unfold rec_article_id at 1. simpl.
    rewrite (function_app_info_id _ _ _ Hinfo), Hids, Hsc.
    replace (top_n - (i + 1)) with (top_n - i - 1) by lia. auto.
Qed.

(** The catalog rows that the function app looks up for the identifiers
    [ids] have a category and a word count that [int] accepts. *)
Definition rows_readable (d : recommender) (ids : list Z) : Prop :=
  forall a row,
    In a ids -> find_row (articles_metadata d) a = Some row ->
    row_category_id row <> Some NaN /\ row_words_count row <> Some NaN.

Lemma rows_readable_all (d : recommender) (ids : list Z) :
  words_counted (articles_metadata d) ->
  categories_known (articles_metadata d) ->
  rows_readable d ids.
Proof.
  intros Hw Hc a row _ Hrow. apply find_row_In in Hrow.
  destruct Hrow as [Hin _]. split; [apply Hc | apply Hw]; assumption.
Qed.

Lemma function_app_first_articles_total (d : recommender) (top_n i : Z)
    (ids : list Z) :
  rows_readable d ids ->
  representable (countdown (top_n - i) (List.length ids)) ->
  exists l, FunctionApp.first_articles d top_n i ids = Ok l.
Proof.
  revert i; induction ids as [|a ids IH]; simpl; intros i Hr Hf.
  - eexists; reflexivity.
  - assert (Hinfo : exists info, FunctionApp.get_article_info d a = Ok info).
    { unfold FunctionApp.get_article_info.
      destruct (find_row (articles_metadata d) a) as [row|] eqn:Hrow;
        [|eexists; reflexivity].
      destruct (Hr a row (or_introl eq_refl) Hrow) as [Hc Hw].
      destruct (row_category_id row) as [[|c]|]; try congruence;
        destruct (row_words_count row) as [[|w]|]; try congruence;
        simpl; eexists; reflexivity. }
    destruct Hinfo as (info & ->). simpl.
    rewrite (IntToFloat.py_float_ok (top_n - i)) by (apply Hf; simpl; auto).
    destruct (IH (i + 1)) as (rest & ->).
    { intros b row Hb. apply Hr. right. assumption. }
    { intros k Hk. apply Hf. right.
      replace (top_n - i - 1) with (top_n - (i + 1)) by lia. exact Hk. }
    simpl. eexists; reflexivity.
Qed.

(** Scores of a fallback list are descending. *)
Lemma countdown_scores_descending (top_n : Z) (k : nat) :
  descending (map float_of_int (countdown top_n k)).
Proof. apply descending_of_counts, countdown_descending. Qed.

(* ================================================================== *)
(** ** The two [recommend_for_user] by path *)

Lemma engine_recommend_paths `{NumericLibrary} (d : recommender) (uid top_n : Z)
    (l : list recommendation) :
  Engine.recommend_for_user d uid top_n = Ok l ->
  (get_user_history d uid = [] /\ Engine._get_popular_articles d top_n = Ok l) \/
  (get_user_history d uid <> [] /\
   exists ranked,
     sorted_recommendations d (get_user_history d uid) top_n = Ok ranked /\
     Engine.enrich d ranked = Ok l).
Proof.
  unfold Engine.recommend_for_user.
  destruct (get_user_history d uid) as [|a h] eqn:Hh; intros Hl.
  - left. auto.
  - right. split; [discriminate|].
    apply bind_ok in Hl. destruct Hl as (ranked & Hr & Hl). eauto.
Qed.

Lemma function_app_recommend_paths `{NumericLibrary} (d : recommender)
    (uid top_n : Z) (l : list recommendation) :
  FunctionApp.recommend_for_user d uid top_n = Ok l ->
  (get_user_history d uid = [] /\
   FunctionApp.first_articles d top_n 0 (py_prefix top_n (article_ids d)) = Ok l) \/
  (get_user_history d uid <> [] /\
   exists ranked,
     sorted_recommendations d (get_user_history d uid) top_n = Ok ranked /\
     FunctionApp.enrich d ranked = Ok l).
Proof.
  unfold FunctionApp.recommend_for_user.
  destruct (get_user_history d uid) as [|a h] eqn:Hh; intros Hl.
  - left. auto.
  - right. split; [discriminate|].
    apply bind_ok in Hl. destruct Hl as (ranked & Hr & Hl). eauto.
Qed.

Lemma engine_enrich_ok (d : recommender) (ranked : list (Z * score))
    (l : list recommendation) :
  Engine.enrich d ranked = Ok l ->
  map rec_article_id l = map fst ranked /\
  map recommendation_score l = map snd ranked.
Proof. apply enrich_loop_ok. apply engine_info_id. Qed.

Lemma function_app_enrich_ok (d : recommender) (ranked : list (Z * score))
    (l : list recommendation) :
  FunctionApp.enrich d ranked = Ok l ->
  map rec_article_id l = map fst ranked /\
  map recommendation_score l = map snd ranked.
Proof. apply enrich_loop_ok. apply function_app_info_id. Qed.

(** What the similarity path guarantees about an enriched list, for
    either implementation. *)
Lemma similarity_path_ok `{NumericLibrary} (d : recommender)
    (user_history : list Z) (top_n : Z) (ranked : list (Z * score))
    (l : list recommendation) :
  sorted_recommendations d user_history top_n = Ok ranked ->
  map rec_article_id l = map fst ranked ->
  map recommendation_score l = map snd ranked ->
  NoDup (map rec_article_id l) /\
  Forall (fun r => ~ In (rec_article_id r) user_history) l /\
  (0 <= top_n -> Z.of_nat (List.length l) <= top_n) /\
  (Forall (fun r => FloatOrder.not_nan (recommendation_score r)) l ->
   descending (map recommendation_score l)).
Proof.
  intros Hr Hids Hsc.
  apply sorted_recommendations_ok in Hr.
  destruct Hr as (Hnd & Hout & Hsorted & Hlen).
  repeat split.
  - rewrite Hids. assumption.
  - rewrite Forall_forall. intros r Hr. apply Hout. rewrite <- Hids.
    apply in_map. assumption.
  - intros Hn. rewrite <- (length_map rec_article_id), Hids, length_map. auto.
  - intros Hnan. rewrite Hsc. apply not_before_descending; [assumption|].
    apply (proj1 (@Forall_map (Z * score) score snd FloatOrder.not_nan ranked)).
    rewrite <- Hsc. apply Forall_map. assumption.
Qed.

(* ================================================================== *)
(** * The claims *)

(** ** C1: neighbours of an item *)

(** C1.  On the specification's own scenario, embeddings
    [{1:[1,0], 2:[1,0], 3:[0,1]}], the lookup [get_similar_articles(1, 2)]
    returns [[(1, 1.0), (3, 0.0)]]: the query item itself is among its
    neighbours.  The slice [[1:top_k+1]] drops whatever index the sort put
    first; with the identical vector of item 2 that index is 2, not 1. *)
Theorem C1_query_item_among_its_neighbours :
  get_similar_articles Examples.duplicate_store 1 2
  = Ok [(1, 1%float); (3, 0%float)].
Proof.
  unfold get_similar_articles. vm_compute. reflexivity.
Qed.

(** The part of C1 that holds for every store and every order of ties: at
    most [top_k] neighbours are returned. *)
Lemma neighbours_at_most_top_k `{NumericLibrary} (d : recommender)
    (article_id top_k : Z) (r : list (Z * score)) :
  0 <= top_k ->
  get_similar_articles d article_id top_k = Ok r ->
  Z.of_nat (List.length r) <= top_k.
Proof. apply get_similar_articles_length. Qed.

(** The outcome does not hinge on how the sort orders ties.  For any
    library that gives the similarities [[1, 1, 0]] to the two identical
    vectors and whose [argsort] sorts ascending, one of items 1 and 2 is
    returned as its own neighbour. *)
Lemma argsort_of_tie (sort : list score -> list nat) :
  argsort_ascending sort [1; 1; 0]%float ->
  sort [1; 1; 0]%float = [2; 0; 1]%nat \/ sort [1; 1; 0]%float = [2; 1; 0]%nat.
Proof.
  intros [Hperm Hasc].
  pose proof (Permutation_length Hperm) as Hlen.
  assert (Hnd : NoDup (sort [1; 1; 0]%float)).
  { apply (Permutation_NoDup (Permutation_sym Hperm)). apply seq_NoDup. }
  assert (Hin : forall a, In a (sort [1; 1; 0]%float) -> (a < 3)%nat).
  { intros a Ha. apply (Permutation_in _ Hperm) in Ha.
    apply in_seq in Ha. simpl in Ha. lia. }
  destruct (sort [1; 1; 0]%float) as [|a [|b [|c [|e l]]]]; try discriminate.
  clear Hlen Hperm.
  assert (Ha : (a < 3)%nat) by (apply Hin; simpl; auto).
  assert (Hb : (b < 3)%nat) by (apply Hin; simpl; auto).
  assert (Hc : (c < 3)%nat) by (apply Hin; simpl; auto).
  inversion Hnd as [|? ? Hna Hnd1]; subst.
  inversion Hnd1 as [|? ? Hnb Hnd2]; subst.
  simpl in Hna, Hnb.
  pose proof (fun x y => Hasc 0%nat 1%nat a b x y ltac:(lia) eq_refl eq_refl) as H01.
  pose proof (fun x y => Hasc 0%nat 2%nat a c x y ltac:(lia) eq_refl eq_refl) as H02.
  destruct a as [|[|[|a]]]; try lia;
    destruct b as [|[|[|b]]]; try lia;
    destruct c as [|[|[|c]]]; try lia;
    try (exfalso; apply Hna; auto; fail);
    try (exfalso; apply Hnb; auto; fail);
    try (specialize (H01 _ _ eq_refl eq_refl); vm_compute in H01; discriminate);
    try (specialize (H02 _ _ eq_refl eq_refl); vm_compute in H02; discriminate);
    auto.
Qed.

Lemma some_item_is_its_own_neighbour (L : NumericLibrary) :
  @cosine_similarity L [1; 0]%float (embeddings Examples.duplicate_store)
  = [1; 1; 0]%float ->
  argsort_ascending (@argsort L) [1; 1; 0]%float ->
  @get_similar_articles L Examples.duplicate_store 1 2
  = Ok [(1, 1%float); (3, 0%float)] \/
  @get_similar_articles L Examples.duplicate_store 2 2
  = Ok [(2, 1%float); (3, 0%float)].
Proof.
  intros Hcos Hsort.
  destruct (argsort_of_tie _ Hsort) as [Ha|Ha]; [left|right];
    unfold get_similar_articles; simpl;
    change (embeddings Examples.duplicate_store)
      with [[1; 0]; [1; 0]; [0; 1]]%float in Hcos;
    rewrite Hcos, Ha; reflexivity.
Qed.

(** The concrete library meets both assumptions, with the first outcome. *)
Lemma numpy_argsort_of_tie :
  argsort_ascending Numpy.argsort [1; 1; 0]%float.
Proof.
  split.
  - change (Numpy.argsort [1; 1; 0]%float) with [2; 0; 1]%nat. simpl.
    apply (Permutation_cons_app [0%nat; 1%nat] [] 2%nat).
    apply Permutation_refl.
  - change (Numpy.argsort [1; 1; 0]%float) with [2; 0; 1]%nat.
    intros i j a b x y Hij Hi Hj Hx Hy.
    destruct i as [|[|[|i]]]; simpl in Hi; try (destruct i; discriminate);
      injection Hi as <-;
      destruct j as [|[|[|j]]]; simpl in Hj; try lia;
      try (destruct j; discriminate);
      injection Hj as <-; simpl in Hx, Hy;
      injection Hx as <-; injection Hy as <-; reflexivity.
Qed.

(** ** C2: nothing already read is recommended *)

(** C2.  For a user whose history is not empty, no entry returned by
    [recommend_for_user] (in either implementation) has an identifier
    that occurs in the user's full history. *)
Theorem C2_history_never_recommended `{NumericLibrary}
    (d : recommender) (uid top_n : Z) :
  get_user_history d uid <> [] ->
  (forall l, Engine.recommend_for_user d uid top_n = Ok l ->
     Forall (fun r => ~ In (rec_article_id r) (get_user_history d uid)) l) /\
  (forall l, FunctionApp.recommend_for_user d uid top_n = Ok l ->
     Forall (fun r => ~ In (rec_article_id r) (get_user_history d uid)) l).
Proof.
  intros Hh. split; intros l Hl.
  - apply engine_recommend_paths in Hl.
    destruct Hl as [[He _]|[_ (ranked & Hr & Hl)]]; [contradiction|].
    apply engine_enrich_ok in Hl. destruct Hl as [Hids Hsc].
    eapply similarity_path_ok; eassumption.
  - apply function_app_recommend_paths in Hl.
    destruct Hl as [[He _]|[_ (ranked & Hr & Hl)]]; [contradiction|].
    apply function_app_enrich_ok in Hl. destruct Hl as [Hids Hsc].
    eapply similarity_path_ok; eassumption.
Qed.

(** User 43 of the small store read articles 2 and 3 and is recommended
    articles 1 and 4. *)
Lemma C2_witness :
  exists l,
    Engine.recommend_for_user Examples.small_store 43 5 = Ok l /\
    map rec_article_id l = [1; 4] /\
    get_user_history Examples.small_store 43 = [2; 3] /\
    Forall (fun r => ~ In (rec_article_id r)
                          (get_user_history Examples.small_store 43)) l.
Proof.
  eexists. split; [vm_compute; reflexivity|].
  split; [reflexivity|]. split; [reflexivity|].
  apply (proj1 (C2_history_never_recommended Examples.small_store 43 5
                  ltac:(vm_compute; discriminate))).
  vm_compute. reflexivity.
Defined.

(** ** C8: an item without embedding *)

(** C8.  For an identifier that is not in the embedding store the lookup
    returns the empty list and raises nothing, and the loop of
    [recommend_for_user] over the seeds goes on with the remaining
    history items as if the unknown one were not there. *)
Theorem C8_unknown_item_is_skipped `{NumericLibrary}
    (d : recommender) (article_id top_k : Z) :
  ~ In article_id (article_ids d) ->
  get_similar_articles d article_id top_k = Ok [] /\
  forall user_history seeds scores,
    collect d user_history (article_id :: seeds) scores
    = collect d user_history seeds scores.
Proof.
  intros Hnot. split.
  - apply get_similar_articles_absent. assumption.
  - intros user_history seeds scores. simpl.
    rewrite get_similar_articles_absent by assumption. reflexivity.
Qed.

Lemma C8_witness :
  get_similar_articles Examples.small_store 99 20 = Ok [] /\
  forall user_history seeds scores,
    collect Examples.small_store user_history (99 :: seeds) scores
    = collect Examples.small_store user_history seeds scores.
Proof.
  apply (C8_unknown_item_is_skipped Examples.small_store 99 20).
  vm_compute. intuition discriminate.
Defined.

(** ** C10: no candidate, no fallback *)

(** C10.  When the history is not empty and every seed among its first
    five either has no embedding or only has neighbours that are in the
    history, [recommend_for_user] returns the empty list in both
    implementations: the popularity or catalog fallback is not entered. *)
Theorem C10_no_candidate_gives_empty_list `{NumericLibrary}
    (d : recommender) (uid top_n : Z) :
  get_user_history d uid <> [] ->
  (forall seed, In seed (py_prefix 5 (get_user_history d uid)) ->
     ~ In seed (article_ids d) \/
     exists r, get_similar_articles d seed 20 = Ok r /\
               forall p, In p r -> In (fst p) (get_user_history d uid)) ->
  Engine.recommend_for_user d uid top_n = Ok [] /\
  FunctionApp.recommend_for_user d uid top_n = Ok [].
Proof.
  intros Hh Hseeds.
  assert (Hc : collect d (get_user_history d uid)
                 (py_prefix 5 (get_user_history d uid)) [] = Ok []).
  { apply collect_nothing. intros seed Hseed.
    destruct (Hseeds seed Hseed) as [Hnot|Hr]; [|assumption].
    exists []. split; [apply get_similar_articles_absent; assumption|].
    intros p []. }
  unfold Engine.recommend_for_user, FunctionApp.recommend_for_user,
    sorted_recommendations.
  destruct (get_user_history d uid) as [|a h]; [contradiction|].
  rewrite Hc. simpl. rewrite py_prefix_nil. auto.
Qed.

(** User 46 of the small store read only article 99, which has no
    embedding: the result is empty although the log is not. *)
Lemma C10_witness :
  Engine.recommend_for_user Examples.small_store 46 5 = Ok [] /\
  FunctionApp.recommend_for_user Examples.small_store 46 5 = Ok [].
Proof.
  apply (C10_no_candidate_gives_empty_list Examples.small_store 46 5).
  - vm_compute. discriminate.
  - intros seed Hseed. left. vm_compute in Hseed.
    destruct Hseed as [<-|[]]. vm_compute. intuition discriminate.
Defined.

(** ** C3: shape of the result list *)

Lemma engine_popular_ok (d : recommender) (top_n : Z) (l : list recommendation) :
  user_clicks d <> [] ->
  Engine._get_popular_articles d top_n = Ok l ->
  let ranking :=
    py_prefix top_n (value_counts (map click_article_id (user_clicks d))) in
  map rec_article_id l = map fst ranking /\
  map recommendation_score l = map float_of_int (map snd ranking).
Proof.
  intros Hlog. unfold Engine._get_popular_articles.
  destruct (user_clicks d) as [|c cs] eqn:Hc; [contradiction|].
  intros Hl. apply mapM_ok in Hl. cbv zeta. rewrite map_map.
  split; eapply Forall2_map_eq; try exact Hl; cbv beta;
    intros p r Hr; apply bind_ok in Hr; destruct Hr as (i & Hi & Hr);
    injection Hr as <-; simpl; [|reflexivity].
  unfold rec_article_id. simpl. eapply engine_info_id. eassumption.
Qed.



(** The ranked candidates are never followed by a greater score. *)
Lemma ranked_sorted (ranked : list (Z * score)) :
  Sorted not_before ranked -> sorted_descending (map snd ranked).
Proof.
  unfold sorted_descending.
  induction 1 as [|x l Hs IH Hd]; simpl; constructor; auto.
  destruct Hd as [|y l Hxy]; simpl; constructor. exact Hxy.
Qed.


(** The result list of the function app, for a non-negative [top_n]. *)
Lemma function_app_result_shape `{NumericLibrary} (d : recommender)
    (uid top_n : Z) (l : list recommendation) :
  0 <= top_n ->
  FunctionApp.recommend_for_user d uid top_n = Ok l ->
  Z.of_nat (List.length l) <= top_n /\
  ((get_user_history d uid = [] -> NoDup (py_prefix top_n (article_ids d))) ->
   NoDup (map rec_article_id l)) /\
  sorted_descending (map recommendation_score l).
Proof.
  intros Hn Hl. apply function_app_recommend_paths in Hl.
  destruct Hl as [[Hh Hl]|[_ (ranked & Hr & Hl)]].
  - apply function_app_first_articles_ok in Hl. rewrite Z.sub_0_r in Hl.
    destruct Hl as [Hids Hsc].
    repeat split.
    + rewrite <- (length_map rec_article_id), Hids.
      apply py_prefix_length. assumption.
    + intros Hnd. rewrite Hids. apply Hnd. assumption.
    + rewrite Hsc. apply descending_sorted, countdown_scores_descending.
  - apply function_app_enrich_ok in Hl. destruct Hl as [Hids Hsc].
    pose proof (sorted_recommendations_ok d _ top_n ranked Hr)
      as (Hnd & _ & Hsorted & Hlen).
    repeat split.
    + rewrite <- (length_map rec_article_id), Hids, length_map. auto.
    + intros _. rewrite Hids. assumption.
    + rewrite Hsc. apply ranked_sorted. assumption.
Qed.




(** ** C4: the popularity fallback *)

(** An entry reduced to its identifier and score. *)
Definition id_and_score (r : recommendation) : Z * score :=
  (rec_article_id r, recommendation_score r).

(** The engine does what C4 says: for a user without history and a log
    that is not empty it returns the first [top_n] rows of the count
    ranking, each with its count as score ([value_counts_descending],
    [value_counts_In] and [value_counts_NoDup] say what that ranking is). *)
Lemma engine_popularity_fallback `{NumericLibrary} (d : recommender)
    (uid top_n : Z) :
  get_user_history d uid = [] ->
  user_clicks d <> [] ->
  0 <= top_n ->
  words_counted (articles_metadata d) ->
  exists l,
    Engine.recommend_for_user d uid top_n = Ok l /\
    map id_and_score l =
      map (fun p => (fst p, float_of_int (snd p)))
          (firstn (Z.to_nat top_n)
                  (value_counts (map click_article_id (user_clicks d)))).
Proof.
  intros Hh Hlog Hn Hw. unfold Engine.recommend_for_user. rewrite Hh.
  assert (Htot : exists l, Engine._get_popular_articles d top_n = Ok l).
  { unfold Engine._get_popular_articles.
    destruct (user_clicks d) as [|c cs]; [contradiction|].
    apply mapM_total. intros p _.
    destruct (engine_info_total d (fst p) Hw) as (i & ->).
    simpl. eexists; reflexivity. }
  destruct Htot as (l & Hl). exists l. split; [assumption|].
  apply engine_popular_ok in Hl; [|assumption]. cbv zeta in Hl.
  rewrite py_prefix_nonneg in Hl by assumption.
  destruct Hl as [Hids Hsc]. revert Hids Hsc.
  generalize (firstn (Z.to_nat top_n)
                (value_counts (map click_article_id (user_clicks d)))).
  clear. induction l as [|r l IH]; intros [|p ps]; simpl; try discriminate; auto.
  intros Hids Hsc. injection Hids as Hid Hids. injection Hsc as Hs Hsc.
  unfold id_and_score at 1. rewrite Hid, Hs. f_equal. auto.
Qed.


(** C4.  The log of [popular_store] holds article 20 twice and article 30
    once, and user 99 has no history.  The claim (and the engine) answer
    [recommend_for_user(99, 2)] with article 20 scored 2 and article 30
    scored 1; the function app answers with the first two stored
    identifiers, 10 and 20, scored 2 and 1. *)
Theorem C4_function_app_ignores_popularity :
  get_user_history Examples.popular_store 99 = [] /\
  value_counts (map click_article_id (user_clicks Examples.popular_store))
    = [(20, 2); (30, 1)] /\
  (exists l, Engine.recommend_for_user Examples.popular_store 99 2 = Ok l /\
             map id_and_score l = [(20, 2%float); (30, 1%float)]) /\
  (exists l, FunctionApp.recommend_for_user Examples.popular_store 99 2 = Ok l /\
             map id_and_score l = [(10, 2%float); (20, 1%float)]).
Proof.
  split; [reflexivity|]. split; [reflexivity|].
  split; eexists; (split; [vm_compute; reflexivity | reflexivity]).
Qed.

(** ** C5: the catalog-order fallback *)

(** The identifiers that the function app enumerates are those of the
    first catalog rows, as many as the matrix has rows. *)
Lemma loaded_store_prefix (matrix : list vector) (metadata : list meta_row)
    (top_n : Z) :
  0 <= top_n <= Z.of_nat (List.length matrix) ->
  firstn (Z.to_nat top_n) (fst (FunctionApp.load_data_from_blob matrix metadata))
  = firstn (Z.to_nat top_n) (map row_article_id metadata).
Proof.
  intros Hn. unfold FunctionApp.load_data_from_blob. simpl fst.
  rewrite py_prefix_nonneg by lia. rewrite Nat2Z.id, firstn_firstn.
  f_equal. lia.
Qed.

Lemma words_counted_plain (ids : list Z) :
  words_counted (map Examples.plain_row ids).
Proof.
  intros row Hrow. apply in_map_iff in Hrow. destruct Hrow as (a & <- & _).
  discriminate.
Qed.

Lemma categories_known_plain (ids : list Z) :
  categories_known (map Examples.plain_row ids).
Proof.
  intros row Hrow. apply in_map_iff in Hrow. destruct Hrow as (a & <- & _).
  discriminate.
Qed.





(** The same scenario for any user: the user identifier is not looked at
    once the log is seen to be empty. *)
Lemma catalog_scenario_any_user (uid : Z) :
  exists l,
    Engine.recommend_for_user Examples.empty_log_store uid 3 = Ok l /\
    map id_and_score l = [(10, 3%float); (20, 2%float); (30, 1%float)].
Proof.
  eexists. split; [vm_compute; reflexivity | reflexivity].
Qed.

Lemma catalog_scenario_function_app (uid : Z) :
  exists l,
    FunctionApp.recommend_for_user Examples.empty_log_store uid 3 = Ok l /\
    map recommendation_score l = [3; 2; 1]%float /\
    map rec_article_id l = [10; 20; 30].
Proof.
  eexists. split; [vm_compute; reflexivity | split; reflexivity].
Qed.

(** ** C6: the catalog lookup *)

(** What the engine's lookup does for an identifier that the catalog does
    not have: the synthetic record, with the category ['N/A']. *)
Lemma engine_info_unknown (d : recommender) (article_id : Z) :
  find_row (articles_metadata d) article_id = None ->
  Engine._get_article_info d article_id
  = Ok {| info_article_id := article_id;
          info_title := PStr (default_title article_id);
          info_category := PStr "N/A";
          info_words_count := 0 |}.
Proof.
  intros Hnone. unfold Engine._get_article_info. rewrite Hnone. reflexivity.
Qed.

(** A missing, empty or blank title becomes ["Article {id}"], and a frame
    without [category_id] or [words_count] column gives ['N/A'] and 0. *)
Lemma engine_info_defaults (d : recommender) (article_id : Z) (row : meta_row) :
  find_row (articles_metadata d) article_id = Some row ->
  (row_title row = None \/ row_title row = Some NaN \/
   row_title row = Some (Val EmptyString)) ->
  row_category_id row = None ->
  row_words_count row = None ->
  Engine._get_article_info d article_id
  = Ok {| info_article_id := article_id;
          info_title := PStr (default_title article_id);
          info_category := PStr "N/A";
          info_words_count := 0 |}.
Proof.
  intros Hrow Ht Hc Hw. unfold Engine._get_article_info.
  rewrite Hrow, Hc, Hw.
  destruct Ht as [->|[->| ->]]; reflexivity.
Qed.

(** The function app: the title is always ["Article {id}"]; a frame
    without [category_id] or [words_count] column gives 0 for either. *)
Lemma function_app_info_defaults (d : recommender) (article_id : Z) (row : meta_row) :
  find_row (articles_metadata d) article_id = Some row ->
  row_category_id row = None ->
  row_words_count row = None ->
  FunctionApp.get_article_info d article_id
  = Ok {| info_article_id := article_id;
          info_title := PStr (default_title article_id);
          info_category := PInt 0;
          info_words_count := 0 |}.
Proof.
  intros Hrow Hc Hw. unfold FunctionApp.get_article_info.
  rewrite Hrow, Hc, Hw. reflexivity.
Qed.

(** The record synthesized for an identifier that the catalog does not
    have (lines 235-241; function_app.py 135-141). *)
Definition synthetic_record (article_id : Z) : article_info :=
  {| info_article_id := article_id;
     info_title := PStr (default_title article_id);
     info_category := PStr "N/A";
     info_words_count := 0 |}.

(** C6.  For an identifier that the catalog does not have, both lookups
    return the synthetic record: title ["Article {id}"], category ['N/A'],
    word count 0.  For a catalogued identifier whose word-count cell (in
    the function app: and category cell) is not empty, the lookup returns
    a record; in the engine a missing, empty or blank title becomes
    ["Article {id}"], a missing category column ['N/A'], a missing
    word-count column 0; in the function app the title is always
    ["Article {id}"], and a missing category or word-count column gives
    0. *)
Theorem C6_lookup_defaults (d : recommender) (article_id : Z) :
  (find_row (articles_metadata d) article_id = None ->
   Engine._get_article_info d article_id = Ok (synthetic_record article_id) /\
   FunctionApp.get_article_info d article_id = Ok (synthetic_record article_id)) /\
  (forall row,
     find_row (articles_metadata d) article_id = Some row ->
     row_words_count row <> Some NaN ->
     exists info,
       Engine._get_article_info d article_id = Ok info /\
       info_article_id info = article_id /\
       (row_title row = None \/ row_title row = Some NaN \/
        row_title row = Some (Val EmptyString) ->
        info_title info = PStr (default_title article_id)) /\
       (row_category_id row = None -> info_category info = PStr "N/A") /\
       (row_words_count row = None -> info_words_count info = 0)) /\
  (forall row,
     find_row (articles_metadata d) article_id = Some row ->
     row_category_id row <> Some NaN ->
     row_words_count row <> Some NaN ->
     exists info,
       FunctionApp.get_article_info d article_id = Ok info /\
       info_article_id info = article_id /\
       info_title info = PStr (default_title article_id) /\
       (row_category_id row = None -> info_category info = PInt 0) /\
       (row_words_count row = None -> info_words_count info = 0)).
Proof.
  split; [|split].
  - intros Hnone.
    unfold Engine._get_article_info, FunctionApp.get_article_info.
    rewrite Hnone. split; reflexivity.
  - intros row Hrow Hw. unfold Engine._get_article_info. rewrite Hrow.
    destruct (row_words_count row) as [[|w]|] eqn:Ew; [congruence| |];
      simpl; eexists; (split; [reflexivity|]); simpl;
      (split; [reflexivity|]);
      (split; [intros [Ht|[Ht|Ht]]; rewrite Ht; reflexivity|]);
      (split; [intros Hc; rewrite Hc; reflexivity|]);
      intros Hw'; congruence.
  - intros row Hrow Hc Hw. unfold FunctionApp.get_article_info. rewrite Hrow.
    destruct (row_category_id row) as [[|c]|] eqn:Ec; [congruence| |];
      (destruct (row_words_count row) as [[|w]|] eqn:Ew; [congruence| |]);
      simpl; eexists; (split; [reflexivity|]); simpl;
      (split; [reflexivity|]); (split; [reflexivity|]);
      split; intros Hx; congruence.
Qed.

(** Article 99 is not in the catalog of the small store. *)
Lemma C6_witness :
  Engine._get_article_info Examples.small_store 99 = Ok (synthetic_record 99) /\
  FunctionApp.get_article_info Examples.small_store 99 = Ok (synthetic_record 99).
Proof.
  apply (proj1 (C6_lookup_defaults Examples.small_store 99)). reflexivity.
Defined.

(** The category that an unknown identifier receives is the string
    ['N/A'], not ['unknown']. *)
Lemma C6_category_sentinel :
  exists info,
    Engine._get_article_info Examples.small_store 99 = Ok info /\
    info_title info = PStr "Article 99" /\
    info_words_count info = 0 /\
    info_category info = PStr "N/A" /\
    info_category info <> PStr "unknown".
Proof.
  eexists. split; [reflexivity|]. simpl.
  repeat split; try reflexivity. discriminate.
Qed.

(** An empty cell where a number is expected is a different matter.  The
    catalog row of article 7 in [sparse_store] has an empty [words_count]
    cell, and both lookups raise [ValueError] on it ([int(nan)]).  The
    title path of the engine does test for an empty cell
    ([pd.isna(title)]), the word-count path does not. *)
Lemma empty_words_count_raises :
  find_row (articles_metadata Examples.sparse_store) 7 = Some Examples.sparse_row /\
  row_words_count Examples.sparse_row = Some NaN /\
  Engine._get_article_info Examples.sparse_store 7 = Raise ValueError /\
  FunctionApp.get_article_info Examples.sparse_store 7 = Raise ValueError.
Proof.
  repeat split; reflexivity.
Qed.

(** The exception reaches the caller of [recommend_for_user]. *)
Lemma empty_words_count_aborts_recommendation (uid : Z) :
  Engine.recommend_for_user Examples.sparse_store uid 1 = Raise ValueError.
Proof. vm_compute. reflexivity. Qed.

(** An empty category cell is handed on as it is by the engine. *)
Lemma empty_category_passes (d : recommender) (article_id : Z) (row : meta_row) :
  find_row (articles_metadata d) article_id = Some row ->
  row_category_id row = Some NaN ->
  forall info, Engine._get_article_info d article_id = Ok info ->
  info_category info = PNaN.
Proof.
  intros Hrow Hc info. unfold Engine._get_article_info. rewrite Hrow, Hc.
  destruct (match row_words_count row with
            | Some c => int_of_cell c | None => Ok 0 end) as [w|e]; simpl;
    intros Hi; [injection Hi as <-; reflexivity | discriminate].
Qed.

(** ** C7: the three layouts of the embeddings *)

Lemma vector_of_mapping (items : list (Z * vector)) (article_id : Z) (v : vector) :
  NoDup (map fst items) ->
  In (article_id, v) items ->
  Engine.vector_of (map fst items, map snd items) article_id = Ok v.
Proof.
  unfold Engine.vector_of. simpl.
  induction items as [|[a w] items IH]; simpl; intros Hnd Hin; [contradiction|].
  inversion Hnd as [|? ? Hnot Hnd']; subst.
  destruct Hin as [Heq|Hin].
  - injection Heq as -> ->. rewrite Z.eqb_refl. reflexivity.
  - destruct (Z.eqb_spec a article_id) as [->|Hne].
    + exfalso. apply Hnot. apply in_map_iff. exists (article_id, v). auto.
    + specialize (IH Hnd' Hin).
      destruct (list_index article_id (map fst items)) as [i|e]; simpl in *;
        [assumption|discriminate].
Qed.

(** C7.  Take a mapping from identifiers to vectors, the pair of its key
    list and its value matrix, and the bare value matrix together with a
    catalog whose first N identifiers are the keys (N the number of
    rows).  [_load_data] turns all three into the same store, so
    [vector_of] answers alike for every identifier; for a key of the
    mapping the answer is the key's vector. *)
Theorem C7_three_layouts_one_store
    (items : list (Z * vector)) (metadata : list meta_row) :
  firstn (List.length items) (map row_article_id metadata) = map fst items ->
  exists store,
    Engine._load_data (Mapping items) metadata = Ok store /\
    Engine._load_data (Paired (map fst items) (map snd items)) metadata = Ok store /\
    Engine._load_data (Matrix (map snd items)) metadata = Ok store /\
    (forall article_id v,
       NoDup (map fst items) -> In (article_id, v) items ->
       Engine.vector_of store article_id = Ok v).
Proof.
  intros Hcat. exists (map fst items, map snd items).
  split; [reflexivity|]. split; [reflexivity|]. split.
  - unfold Engine._load_data. rewrite py_prefix_nonneg by lia.
    rewrite Nat2Z.id, length_map, Hcat. reflexivity.
  - intros article_id v. apply vector_of_mapping.
Qed.

Lemma C7_witness :
  exists store,
    Engine._load_data (Mapping [(10, [1; 0]%float); (20, [0; 1]%float)])
      (map Examples.plain_row [10; 20; 30]) = Ok store /\
    Engine._load_data (Paired [10; 20] [[1; 0]; [0; 1]]%float)
      (map Examples.plain_row [10; 20; 30]) = Ok store /\
    Engine._load_data (Matrix [[1; 0]; [0; 1]]%float)
      (map Examples.plain_row [10; 20; 30]) = Ok store /\
    Engine.vector_of store 20 = Ok [0; 1]%float.
Proof.
  destruct (C7_three_layouts_one_store
              [(10, [1; 0]%float); (20, [0; 1]%float)]
              (map Examples.plain_row [10; 20; 30]) eq_refl)
    as (store & Hm & Hp & Hb & Hv).
  exists store. split; [exact Hm|]. split; [exact Hp|]. split; [exact Hb|].
  apply Hv; simpl; [|tauto].
  repeat constructor; simpl; intuition discriminate.
Defined.

(** The function app reads the bare matrix only, and builds the same
    store from it as the engine does. *)
Lemma function_app_load_agrees (matrix : list vector) (metadata : list meta_row) :
  Engine._load_data (Matrix matrix) metadata
  = Ok (FunctionApp.load_data_from_blob matrix metadata).
Proof. reflexivity. Qed.

(** ** C9: range of the similarity scores *)





(* ================================================================== *)
(** * Further properties of the recommender *)

(** ** The reading history *)

Lemma get_user_history_unique (d : recommender) (uid : Z) :
  get_user_history d uid
  = unique (map click_article_id
              (filter (fun c => Z.eqb (user_id c) uid) (user_clicks d))).
Proof.
  unfold get_user_history.
  destruct (user_clicks d) as [|c cs]; [reflexivity|].
  destruct (filter _ (c :: cs)); reflexivity.
Qed.

(** X1.  [get_user_history] returns every article that the user clicked in
    the log, each once, and nothing else; a user without a click, and any
    user when the log is empty, gets the empty list. *)
Theorem history_lists_the_users_articles (d : recommender) (uid : Z) :
  NoDup (get_user_history d uid) /\
  (forall a, In a (get_user_history d uid) <->
     exists c, In c (user_clicks d) /\ user_id c = uid /\ click_article_id c = a) /\
  (get_user_history d uid = [] <->
     forall c, In c (user_clicks d) -> user_id c <> uid).
Proof.
  assert (Hmem : forall a, In a (get_user_history d uid) <->
            exists c, In c (user_clicks d) /\ user_id c = uid /\
                      click_article_id c = a).
  { intros a. rewrite get_user_history_unique, unique_In, in_map_iff. split.
    - intros (c & Ha & Hc). apply filter_In in Hc. destruct Hc as [Hin Hu].
      apply Z.eqb_eq in Hu. exists c. auto.
    - intros (c & Hin & Hu & Ha). exists c. split; [assumption|].
      apply filter_In. split; [assumption|]. apply Z.eqb_eq. assumption. }
  split; [rewrite get_user_history_unique; apply unique_NoDup|].
  split; [exact Hmem|]. split.
  - intros He c Hc Hu.
    assert (Hin : In (click_article_id c) (get_user_history d uid))
      by (apply Hmem; exists c; auto).
    rewrite He in Hin. contradiction.
  - intros Hnone. destruct (get_user_history d uid) as [|a h] eqn:Hh;
      [reflexivity|].
    destruct (proj1 (Hmem a)) as (c & Hc & Hu & _); [simpl; auto|].
    exfalso. exact (Hnone c Hc Hu).
Qed.

(** ** The similarity lookup on a well-formed store *)

(** What the libraries document: [cosine_similarity] returns one score per
    row of the matrix, [argsort] a rearrangement of the indices. *)
Definition well_behaved (L : NumericLibrary) : Prop :=
  (forall q M, List.length (@cosine_similarity L q M) = List.length M) /\
  (forall xs, Permutation (@argsort L xs) (seq 0 (List.length xs))).

Lemma insert_index_perm (xs : list score) (i : nat) (l : list nat) :
  Permutation (Numpy.insert_index xs i l) (i :: l).
Proof.
  induction l as [|j l IH]; simpl; [reflexivity|].
  destruct (PrimFloat.ltb _ _); [|reflexivity].
  rewrite IH. apply perm_swap.
Qed.

Lemma numpy_well_behaved : well_behaved numpy_sklearn.
Proof.
  split.
  - intros q M. simpl. unfold Numpy.cosine_similarity. apply length_map.
  - intros xs. simpl. unfold Numpy.argsort.
    induction (seq 0 (List.length xs)) as [|i l IH]; simpl; [reflexivity|].
    rewrite insert_index_perm. constructor. assumption.
Qed.

Lemma skipn_NoDup {A : Type} (k : nat) (l : list A) :
  NoDup l -> NoDup (skipn k l).
Proof.
  revert k; induction l as [|x l IH]; intros [|k] H; simpl; auto.
  inversion H; auto.
Qed.

Lemma py_slice_NoDup {A : Type} (lo hi : Z) (l : list A) :
  NoDup l -> NoDup (py_slice lo hi l).
Proof.
  intros H. destruct (py_slice_firstn_skipn lo hi l) as (a & k & ->).
  apply firstn_NoDup, skipn_NoDup, H.
Qed.

(** The positions that the lookup reads are distinct indices of the
    similarity array. *)
Lemma similar_indices_ok (L : NumericLibrary) (xs : list score) (top_k : Z) :
  Permutation (@argsort L xs) (seq 0 (List.length xs)) ->
  NoDup (py_slice 1 (top_k + 1) (rev (argsort xs))) /\
  forall idx, In idx (py_slice 1 (top_k + 1) (rev (argsort xs))) ->
              (idx < List.length xs)%nat.
Proof.
  intros Hp. split.
  - apply py_slice_NoDup.
    apply (Permutation_NoDup (Permutation_rev (argsort xs))).
    apply (Permutation_NoDup (Permutation_sym Hp)). apply seq_NoDup.
  - intros idx Hin. apply py_slice_In in Hin. apply in_rev in Hin.
    apply (Permutation_in _ Hp) in Hin. apply in_seq in Hin. lia.
Qed.

Lemma py_slice_from_1_exact {A : Type} (k : Z) (l : list A) :
  0 <= k -> l <> [] ->
  Z.of_nat (List.length (py_slice 1 (k + 1) l))
  = Z.min k (Z.of_nat (List.length l) - 1).
Proof.
  intros Hk Hl. unfold py_slice, slice_bound.
  assert (H1 : (1 <? 0) = false) by reflexivity. rewrite H1.
  assert (Hk' : (k + 1 <? 0) = false) by (apply Z.ltb_ge; lia). rewrite Hk'.
  assert (Hlen : 1 <= Z.of_nat (List.length l))
    by (destruct l; [contradiction | simpl; lia]).
  rewrite length_firstn, length_skipn. lia.
Qed.

(** X2.  On a store with one embedding row per identifier, and a library
    that behaves as documented, the lookup of a stored article returns
    normally, with exactly [min(top_k, n - 1)] neighbours, [n] the number
    of stored articles. *)
Theorem similar_articles_count (L : NumericLibrary) (d : recommender)
    (article_id top_k : Z) :
  well_behaved L ->
  List.length (embeddings d) = List.length (article_ids d) ->
  In article_id (article_ids d) ->
  0 <= top_k ->
  exists r,
    @get_similar_articles L d article_id top_k = Ok r /\
    Z.of_nat (List.length r)
    = Z.min top_k (Z.of_nat (List.length (article_ids d)) - 1).
Proof.
  intros [Hcos Hsort] Hlen Hin Hk.
  destruct (list_index_present _ _ Hin) as (idx & Hidx & Hnth).
  assert (Hlt : (idx < List.length (embeddings d))%nat).
  { rewrite Hlen. apply nth_error_Some. congruence. }
  destruct (nth_error (embeddings d) idx) as [emb|] eqn:Hemb;
    [|apply nth_error_Some in Hlt; contradiction].
  set (sims := @cosine_similarity L emb (embeddings d)).
  assert (Hsims : List.length sims = List.length (article_ids d))
    by (unfold sims; rewrite Hcos; assumption).
  destruct (similar_indices_ok L sims top_k (Hsort sims)) as [_ Hbound].
  destruct (mapM_total
              (fun i => aid <- subscript (article_ids d) i ;;
                        sim <- subscript sims i ;; Ok (aid, sim))
              (py_slice 1 (top_k + 1) (rev (argsort sims)))) as (r & Hr).
  { intros i Hi. apply Hbound in Hi. unfold subscript.
    destruct (nth_error (article_ids d) i) as [a|] eqn:Ha;
      [|apply nth_error_None in Ha; lia].
    destruct (nth_error sims i) as [s|] eqn:Hs;
      [|apply nth_error_None in Hs; lia].
    simpl. eexists; reflexivity. }
  exists r. split.
  - unfold get_similar_articles. rewrite Hidx. simpl.
    unfold subscript at 1. rewrite Hemb. simpl. fold sims. rewrite Hr.
    reflexivity.
  - apply mapM_ok, Forall2_length_eq in Hr. rewrite Hr.
    rewrite py_slice_from_1_exact.
    + rewrite length_rev, (Permutation_length (Hsort sims)), length_seq, Hsims.
      reflexivity.
    + assumption.
    + intros Hnil. apply (f_equal (@List.length nat)) in Hnil.
      rewrite length_rev, (Permutation_length (Hsort sims)), length_seq, Hsims
        in Hnil.
      destruct (article_ids d); [contradiction | discriminate].
Qed.

(** The spec's scenario store: three articles, two neighbours asked for. *)
Lemma similar_articles_count_witness :
  exists r,
    get_similar_articles Examples.duplicate_store 3 2 = Ok r /\
    Z.of_nat (List.length r) = 2.
Proof.
  destruct (similar_articles_count numpy_sklearn Examples.duplicate_store 3 2
              numpy_well_behaved eq_refl) as (r & Hr & Hlen).
  - simpl. tauto.
  - lia.
  - exists r. split; [exact Hr | exact Hlen].
Defined.

Lemma nth_error_NoDup_inj {A : Type} (l : list A) (i j : nat) (x : A) :
  NoDup l -> nth_error l i = Some x -> nth_error l j = Some x -> i = j.
Proof.
  intros Hnd Hi Hj. apply (proj1 (NoDup_nth_error l) Hnd).
  - apply nth_error_Some. congruence.
  - congruence.
Qed.

Lemma similar_articles_are_stored_aux `{NumericLibrary} (d : recommender)
    (article_id top_k : Z) (r : list (Z * score)) :
  get_similar_articles d article_id top_k = Ok r ->
  forall p, In p r -> In (fst p) (article_ids d).
Proof.
  intros Hr. apply get_similar_articles_ok in Hr.
  destruct Hr as [->|(idx & emb & _ & _ & HF)]; [intros p []|].
  cbv zeta in HF.
  induction HF as [|i p idxs ps [Hi _] _ IH]; intros q Hq; [contradiction|].
  destruct Hq as [<-|Hq]; [eapply nth_error_In; eauto | auto].
Qed.

(** X3.  Whatever the lookup returns are stored articles; when the stored
    identifiers are distinct and [argsort] rearranges the indices, no
    article is returned twice. *)
Theorem similar_articles_are_stored (L : NumericLibrary) (d : recommender)
    (article_id top_k : Z) (r : list (Z * score)) :
  @get_similar_articles L d article_id top_k = Ok r ->
  (forall p, In p r -> In (fst p) (article_ids d)) /\
  ((forall xs, Permutation (@argsort L xs) (seq 0 (List.length xs))) ->
   NoDup (article_ids d) -> NoDup (map fst r)).
Proof.
  intros Hr. apply get_similar_articles_ok in Hr.
  destruct Hr as [->|(idx & emb & _ & _ & HF)].
  { split; [intros p [] | intros _ _; constructor]. }
  cbv zeta in HF. split.
  - clear -HF. induction HF as [|i p idxs ps [Hi _] _ IH]; intros q Hq;
      [contradiction|].
    destruct Hq as [<-|Hq]; [eapply nth_error_In; eauto | auto].
  - intros Hsort Hnd.
    destruct (similar_indices_ok L _ top_k
                (Hsort (@cosine_similarity L emb (embeddings d)))) as [Hidx _].
    revert Hidx. clear -HF Hnd.
    induction HF as [|i p idxs ps [Hi _] HF IH]; simpl; intros Hidx;
      [constructor|].
    inversion Hidx as [|? ? Hnot Hrest]; subst.
    constructor; [|apply IH; assumption].
    intros Hin. apply Hnot. clear IH Hrest Hidx Hnot.
    induction HF as [|j q js qs [Hj _] HF IH]; simpl in *; [contradiction|].
    destruct Hin as [Heq|Hin].
    + left. eapply nth_error_NoDup_inj; eauto. congruence.
    + right. auto.
Qed.

Lemma similar_articles_are_stored_witness :
  In 1 (article_ids Examples.duplicate_store) /\
  In 3 (article_ids Examples.duplicate_store).
Proof.
  pose proof (proj1 (similar_articles_are_stored numpy_sklearn
                       Examples.duplicate_store 1 2 _
                       ltac:(unfold get_similar_articles; vm_compute;
                             reflexivity))) as H.
  split; [apply (H (1, 1%float)) | apply (H (3, 0%float))]; simpl; auto.
Defined.

(** ** The candidates of the similarity path *)

Lemma accumulate_keys (user_history : list Z) (similar : list (Z * score))
    (scores : scores_dict) (x : Z) :
  In x (map fst (accumulate user_history scores similar)) ->
  In x (map fst scores) \/ In x (map fst similar).
Proof.
  unfold accumulate. revert scores.
  induction similar as [|[k s] similar IH]; simpl; intros scores Hx; [auto|].
  apply IH in Hx. destruct Hx as [Hx|Hx]; [|auto].
  destruct (py_in k user_history); [auto|].
  apply add_score_In in Hx. destruct Hx as [Hx|Hx]; subst; auto.
Qed.

Lemma collect_keys_stored `{NumericLibrary} (d : recommender)
    (user_history seeds : list Z) (scores result : scores_dict) :
  (forall x, In x (map fst scores) -> In x (article_ids d)) ->
  collect d user_history seeds scores = Ok result ->
  forall x, In x (map fst result) -> In x (article_ids d).
Proof.
  revert scores. induction seeds as [|a seeds IH]; simpl; intros scores Hs Hr.
  - injection Hr as <-. assumption.
  - apply bind_ok in Hr. destruct Hr as (sim & Hsim & Hr).
    eapply IH; [|exact Hr]. intros x Hx.
    apply accumulate_keys in Hx. destruct Hx as [Hx|Hx]; [auto|].
    apply in_map_iff in Hx. destruct Hx as (p & <- & Hp).
    apply (similar_articles_are_stored_aux d a 20 sim Hsim p Hp).
Qed.

Lemma accumulate_length (user_history : list Z) (similar : list (Z * score))
    (scores : scores_dict) :
  (List.length (accumulate user_history scores similar)
   <= List.length scores + List.length similar)%nat.
Proof.
  unfold accumulate. revert scores.
  induction similar as [|[k s] similar IH]; simpl; intros scores; [lia|].
  etransitivity; [apply IH|].
  destruct (py_in k user_history); [lia|].
  rewrite <- (length_map fst (add_score scores k s)), add_score_keys.
  destruct (dict_has k scores);
    [|rewrite length_app]; rewrite length_map; simpl; lia.
Qed.

Lemma collect_length `{NumericLibrary} (d : recommender)
    (user_history seeds : list Z) (scores result : scores_dict) :
  collect d user_history seeds scores = Ok result ->
  (List.length result <= List.length scores + 20 * List.length seeds)%nat.
Proof.
  revert scores. induction seeds as [|a seeds IH]; simpl; intros scores Hr.
  - injection Hr as <-. lia.
  - apply bind_ok in Hr. destruct Hr as (sim & Hsim & Hr).
    apply IH in Hr.
    pose proof (accumulate_length user_history sim scores).
    apply get_similar_articles_length in Hsim; lia.
Qed.

(** The ranked candidates are among the keys of the score dictionary that
    the first five history entries produce. *)
Lemma sorted_recommendations_keys `{NumericLibrary} (d : recommender)
    (user_history : list Z) (top_n : Z) (ranked : list (Z * score)) :
  sorted_recommendations d user_history top_n = Ok ranked ->
  exists scores,
    collect d user_history (py_prefix 5 user_history) [] = Ok scores /\
    (forall x, In x (map fst ranked) -> In x (map fst scores)) /\
    (List.length ranked <= List.length scores)%nat.
Proof.
  unfold sorted_recommendations. intros Hr.
  apply bind_ok in Hr. destruct Hr as (scores & Hc & Hr).
  injection Hr as <-. exists scores. split; [assumption|].
  destruct (py_prefix_firstn top_n (sorted_desc scores)) as (k & ->).
  pose proof (sorted_desc_perm scores) as Hp. split.
  - intros x Hx. rewrite <- firstn_map in Hx. apply firstn_In in Hx.
    eapply Permutation_in; [|exact Hx]. apply Permutation_map. assumption.
  - rewrite length_firstn, (Permutation_length Hp). lia.
Qed.

(** X4.  For a user with a history, every recommended article is one of
    the stored articles, the ones that have an embedding: the catalog
    plays no part in choosing them. *)
Theorem recommended_articles_are_stored `{NumericLibrary}
    (d : recommender) (uid top_n : Z) :
  get_user_history d uid <> [] ->
  (forall l, Engine.recommend_for_user d uid top_n = Ok l ->
     Forall (fun r => In (rec_article_id r) (article_ids d)) l) /\
  (forall l, FunctionApp.recommend_for_user d uid top_n = Ok l ->
     Forall (fun r => In (rec_article_id r) (article_ids d)) l).
Proof.
  intros Hh.
  assert (Hkeys : forall ranked l,
            sorted_recommendations d (get_user_history d uid) top_n = Ok ranked ->
            map rec_article_id l = map fst ranked ->
            Forall (fun r => In (rec_article_id r) (article_ids d)) l).
  { intros ranked l Hr Hids.
    apply sorted_recommendations_keys in Hr.
    destruct Hr as (scores & Hc & Hsub & _).
    apply Forall_forall. intros r Hin.
    eapply collect_keys_stored; [|exact Hc|]; [intros x []|].
    apply Hsub. rewrite <- Hids. apply in_map. assumption. }
  split; intros l Hl.
  - apply engine_recommend_paths in Hl.
    destruct Hl as [[He _]|(_ & ranked & Hr & Hl)]; [contradiction|].
    apply engine_enrich_ok in Hl. apply (Hkeys ranked l Hr (proj1 Hl)).
  - apply function_app_recommend_paths in Hl.
    destruct Hl as [[He _]|(_ & ranked & Hr & Hl)]; [contradiction|].
    apply function_app_enrich_ok in Hl. apply (Hkeys ranked l Hr (proj1 Hl)).
Qed.

(** User 43 of the small store: the recommended articles 1 and 4 are
    stored. *)
Lemma recommended_articles_are_stored_witness :
  exists l,
    Engine.recommend_for_user Examples.small_store 43 5 = Ok l /\
    Forall (fun r => In (rec_article_id r) (article_ids Examples.small_store)) l.
Proof.
  eexists. split; [vm_compute; reflexivity|].
  apply (proj1 (@recommended_articles_are_stored numpy_sklearn
                  Examples.small_store 43 5 ltac:(vm_compute; discriminate))).
  vm_compute. reflexivity.
Defined.

(** X5.  For a user with a history at most 100 articles are recommended,
    however large [top_n] is: five history entries are used, with twenty
    neighbours each. *)
Theorem at_most_100_recommendations `{NumericLibrary}
    (d : recommender) (uid top_n : Z) :
  get_user_history d uid <> [] ->
  (forall l, Engine.recommend_for_user d uid top_n = Ok l ->
     (List.length l <= 100)%nat) /\
  (forall l, FunctionApp.recommend_for_user d uid top_n = Ok l ->
     (List.length l <= 100)%nat).
Proof.
  intros Hh.
  assert (Hbound : forall ranked (l : list recommendation),
            sorted_recommendations d (get_user_history d uid) top_n = Ok ranked ->
            map rec_article_id l = map fst ranked ->
            (List.length l <= 100)%nat).
  { intros ranked l Hr Hids.
    apply sorted_recommendations_keys in Hr.
    destruct Hr as (scores & Hc & _ & Hlen).
    apply collect_length in Hc. simpl in Hc.
    pose proof (py_prefix_length 5 (get_user_history d uid) ltac:(lia)) as H5.
    apply (f_equal (@List.length Z)) in Hids. rewrite !length_map in Hids.
    lia. }
  split; intros l Hl.
  - apply engine_recommend_paths in Hl.
    destruct Hl as [[He _]|(_ & ranked & Hr & Hl)]; [contradiction|].
    apply engine_enrich_ok in Hl. apply (Hbound ranked l Hr (proj1 Hl)).
  - apply function_app_recommend_paths in Hl.
    destruct Hl as [[He _]|(_ & ranked & Hr & Hl)]; [contradiction|].
    apply function_app_enrich_ok in Hl. apply (Hbound ranked l Hr (proj1 Hl)).
Qed.

Lemma at_most_100_recommendations_witness :
  exists l,
    FunctionApp.recommend_for_user Examples.small_store 43 1000 = Ok l /\
    (List.length l <= 100)%nat.
Proof.
  eexists. split; [vm_compute; reflexivity|].
  apply (proj2 (@at_most_100_recommendations numpy_sklearn
                  Examples.small_store 43 1000 ltac:(vm_compute; discriminate))).
  vm_compute. reflexivity.
Defined.

(** ** The popularity fallback of the engine *)

Lemma occurrences_pos (x : Z) (l : list Z) : In x l -> 1 <= occurrences x l.
Proof.
  intros Hin. unfold occurrences.
  assert (Hf : In x (filter (Z.eqb x) l))
    by (apply filter_In; split; [assumption | apply Z.eqb_refl]).
  destruct (filter (Z.eqb x) l); [contradiction | simpl; lia].
Qed.

Lemma maps_Forall2 {A B C D : Type} (f : A -> C) (g : B -> C)
    (f' : A -> D) (g' : B -> D) (l : list A) (r : list B) :
  map f l = map g r -> map f' l = map g' r ->
  Forall2 (fun a b => f a = g b /\ f' a = g' b) l r.
Proof.
  revert r. induction l as [|a l IH]; intros [|b r]; simpl; intros H1 H2;
    try discriminate; constructor.
  - split; congruence.
  - apply IH; congruence.
Qed.

(** X6.  For a user without history, when the log is not empty, the engine
    recommends only articles that occur in the log, none of them twice,
    each scored with the number of clicks it received. *)
Theorem popular_articles_come_from_the_log `{NumericLibrary}
    (d : recommender) (uid top_n : Z) (l : list recommendation) :
  get_user_history d uid = [] ->
  user_clicks d <> [] ->
  Engine.recommend_for_user d uid top_n = Ok l ->
  let clicked := map click_article_id (user_clicks d) in
  NoDup (map rec_article_id l) /\
  Forall (fun r =>
            In (rec_article_id r) clicked /\
            1 <= occurrences (rec_article_id r) clicked /\
            recommendation_score r
            = float_of_int (occurrences (rec_article_id r) clicked)) l.
Proof.
  intros Hh Hlog Hl clicked. unfold Engine.recommend_for_user in Hl.
  rewrite Hh in Hl. apply engine_popular_ok in Hl; [|assumption].
  cbv zeta in Hl. fold clicked in Hl. destruct Hl as [Hids Hsc].
  destruct (py_prefix_firstn top_n (value_counts clicked)) as (k & Hk).
  rewrite Hk in Hids, Hsc. split.
  - rewrite Hids, <- firstn_map. apply firstn_NoDup, value_counts_NoDup.
  - rewrite map_map in Hsc.
    pose proof (maps_Forall2 _ _ _ _ _ _ Hids Hsc) as HF.
    assert (Hsub : forall p, In p (firstn k (value_counts clicked)) ->
                             In (fst p) clicked /\ snd p = occurrences (fst p) clicked).
    { intros [x c] Hp. apply firstn_In in Hp. apply value_counts_In in Hp.
      exact Hp. }
    revert Hsub. clear -HF.
    induction HF as [|r p rs ps [Hid Hs] _ IH]; intros Hsub; constructor.
    + destruct (Hsub p (or_introl eq_refl)) as [Hin Hc].
      rewrite Hid, Hs, Hc. repeat split; auto. apply occurrences_pos, Hin.
    + apply IH. intros q Hq. apply Hsub. right. assumption.
Qed.

(** User 99 has no history in [popular_store]; articles 20 and 30 are
    recommended. *)
Lemma popular_articles_come_from_the_log_witness :
  exists l,
    Engine.recommend_for_user Examples.popular_store 99 2 = Ok l /\
    NoDup (map rec_article_id l).
Proof.
  eexists. split; [vm_compute; reflexivity|].
  apply (@popular_articles_come_from_the_log numpy_sklearn
           Examples.popular_store 99 2 _ eq_refl ltac:(discriminate)
           ltac:(vm_compute; reflexivity)).
Defined.

(** ** The two implementations side by side *)

(** The store [d] with another interaction log. *)
Definition with_clicks (d : recommender) (clicks : list click) : recommender :=
  {| article_ids := article_ids d;
     embeddings := embeddings d;
     articles_metadata := articles_metadata d;
     user_clicks := clicks |}.

Lemma function_app_first_articles_frame (d : recommender) (clicks : list click)
    (top_n i : Z) (ids : list Z) :
  FunctionApp.first_articles (with_clicks d clicks) top_n i ids
  = FunctionApp.first_articles d top_n i ids.
Proof.
  revert i. induction ids as [|a ids IH]; intros i; simpl; [reflexivity|].
  rewrite IH. reflexivity.
Qed.

(** X8.  In the function app the answer for a user without history does
    not depend on the interaction log: it is the answer that any user gets
    when the log is empty. *)
Theorem function_app_fallback_ignores_log `{NumericLibrary}
    (d : recommender) (uid other top_n : Z) :
  get_user_history d uid = [] ->
  FunctionApp.recommend_for_user d uid top_n
  = FunctionApp.recommend_for_user (with_clicks d []) other top_n.
Proof.
  intros Hh. unfold FunctionApp.recommend_for_user. rewrite Hh.
  change (get_user_history (with_clicks d []) other) with (@nil Z).
  cbv iota. rewrite function_app_first_articles_frame. reflexivity.
Qed.

Lemma function_app_fallback_ignores_log_witness :
  FunctionApp.recommend_for_user Examples.popular_store 99 2
  = FunctionApp.recommend_for_user (with_clicks Examples.popular_store []) 7 2.
Proof.
  apply (@function_app_fallback_ignores_log numpy_sklearn
           Examples.popular_store 99 7 2).
  reflexivity.
Defined.

(** ** The users offered for a test *)

Lemma get_user_history_In (d : recommender) (uid a : Z) :
  In a (get_user_history d uid) <->
  exists c, In c (user_clicks d) /\ user_id c = uid /\ click_article_id c = a.
Proof.
  rewrite get_user_history_unique, unique_In, in_map_iff. split.
  - intros (c & Ha & Hc). apply filter_In in Hc. destruct Hc as [Hin Hu].
    apply Z.eqb_eq in Hu. exists c. auto.
  - intros (c & Hin & Hu & Ha). exists c. split; [assumption|].
    apply filter_In. split; [assumption|]. apply Z.eqb_eq. assumption.
Qed.

(** X9.  When the log is not empty, [get_available_users] returns distinct
    users, at most [limit] of them, and each of them has a history: a
    recommendation for one of them never takes the fallback. *)
Theorem available_users_have_a_history (d : recommender) (limit : Z) :
  user_clicks d <> [] ->
  NoDup (Engine.get_available_users d limit) /\
  (0 <= limit -> Z.of_nat (List.length (Engine.get_available_users d limit)) <= limit) /\
  (forall u, In u (Engine.get_available_users d limit) ->
             get_user_history d u <> []).
Proof.
  intros Hlog. unfold Engine.get_available_users.
  destruct (user_clicks d) as [|c0 cs] eqn:Hc; [contradiction|].
  rewrite <- Hc. clear Hlog.
  destruct (py_prefix_firstn limit (unique (map user_id (user_clicks d))))
    as (k & Hk).
  split; [rewrite Hk; apply firstn_NoDup, unique_NoDup|].
  split; [apply py_prefix_length|].
  intros u Hu Hnil. rewrite Hk in Hu. apply firstn_In in Hu.
  apply (proj1 (unique_In _ _)) in Hu. apply in_map_iff in Hu.
  destruct Hu as (c & Hcu & Hin).
  assert (Ha : In (click_article_id c) (get_user_history d u))
    by (apply get_user_history_In; exists c; auto).
  rewrite Hnil in Ha. contradiction.
Qed.

Lemma available_users_have_a_history_witness :
  Engine.get_available_users Examples.small_store 3 = [42; 43; 44] /\
  NoDup (Engine.get_available_users Examples.small_store 3).
Proof.
  split; [reflexivity|].
  apply (available_users_have_a_history Examples.small_store 3).
  discriminate.
Defined.

Lemma py_range_In (lo hi x : Z) : In x (py_range lo hi) <-> lo <= x < hi.
Proof.
  unfold py_range. rewrite in_map_iff. split.
  - intros (i & <- & Hi). apply in_seq in Hi. lia.
  - intros Hx. exists (Z.to_nat (x - lo)). split; [lia|].
    apply in_seq. lia.
Qed.

Lemma py_range_length (lo hi : Z) :
  Z.of_nat (List.length (py_range lo hi)) = Z.max 0 (hi - lo).
Proof. unfold py_range. rewrite length_map, length_seq. lia. Qed.

(** X10.  When the log is empty, [get_available_users] invents the users
    [1 .. min(limit, 100)]; none of them has a history, so each is served
    by the fallback. *)
Theorem invented_users_have_no_history (d : recommender) (limit : Z) :
  user_clicks d = [] ->
  Z.of_nat (List.length (Engine.get_available_users d limit))
  = Z.max 0 (Z.min limit 100) /\
  (forall u, In u (Engine.get_available_users d limit) <->
             1 <= u <= Z.min limit 100) /\
  (forall u, get_user_history d u = []).
Proof.
  intros Hlog. unfold Engine.get_available_users. rewrite Hlog.
  split; [rewrite py_range_length; lia|].
  split; [intros u; rewrite py_range_In; lia|].
  intros u. unfold get_user_history. rewrite Hlog. reflexivity.
Qed.

Lemma invented_users_have_no_history_witness :
  Z.of_nat (List.length (Engine.get_available_users Examples.empty_log_store 500))
  = 100.
Proof.
  apply (invented_users_have_no_history Examples.empty_log_store 500).
  reflexivity.
Defined.

(** ** The click files of the engine *)

Lemma insert_by_name_perm (f : Engine.csv_file) (l : list Engine.csv_file) :
  Permutation (Engine.insert_by_name f l) (f :: l).
Proof.
  induction l as [|g l IH]; simpl; [reflexivity|].
  destruct (String.leb (fst f) (fst g)); [reflexivity|].
  rewrite IH. apply perm_swap.
Qed.

Lemma sorted_by_name_perm (files : list Engine.csv_file) :
  Permutation (Engine.sorted_by_name files) files.
Proof.
  induction files as [|f files IH]; simpl; [reflexivity|].
  rewrite insert_by_name_perm. constructor. assumption.
Qed.

Lemma read_all_In {A : Type} (reads : list (outcome (list A))) (df : list A) :
  In df (read_all reads) <-> In (Returns df) reads.
Proof.
  induction reads as [|[df'|e] reads IH]; simpl; [tauto| |].
  - rewrite IH. split; (intros [H|H]; [left; congruence | right; assumption]).
  - rewrite IH. split; [auto | intros [H|H]; [discriminate | assumption]].
Qed.

(** The three ways in which [_load_clicks] arrives at an empty frame give
    what the last branch gives. *)
Lemma _load_clicks_concat (files : list Engine.csv_file) :
  Engine._load_clicks (Some files)
  = concat (read_all (map snd (py_prefix 10 (Engine.sorted_by_name files)))).
Proof.
  unfold Engine._load_clicks.
  destruct (py_prefix 10 (Engine.sorted_by_name files)) as [|f fs];
    [reflexivity|].
  destruct (read_all (map snd (f :: fs))); reflexivity.
Qed.

(** X11.  Every click that [_load_clicks] loads comes from a file of the
    folder that could be read; without the folder nothing is loaded; and
    when the folder holds at most ten files, every click of every readable
    file is loaded, the unreadable files being skipped. *)
Theorem clicks_come_from_readable_files
    (clicks_folder : option (list Engine.csv_file)) :
  (forall c, In c (Engine._load_clicks clicks_folder) ->
     exists files name df,
       clicks_folder = Some files /\ In (name, Returns df) files /\ In c df) /\
  (forall files name df c,
     clicks_folder = Some files -> (List.length files <= 10)%nat ->
     In (name, Returns df) files -> In c df ->
     In c (Engine._load_clicks clicks_folder)).
Proof.
  split.
  - intros c Hc. destruct clicks_folder as [files|]; [|contradiction].
    rewrite _load_clicks_concat in Hc. apply in_concat in Hc.
    destruct Hc as (df & Hdf & Hc). apply read_all_In in Hdf.
    apply in_map_iff in Hdf. destruct Hdf as ([name r] & Hr & Hin).
    simpl in Hr. subst r.
    destruct (py_prefix_firstn 10 (Engine.sorted_by_name files)) as (k & Hk).
    rewrite Hk in Hin. apply firstn_In in Hin.
    apply (Permutation_in _ (sorted_by_name_perm files)) in Hin.
    exists files, name, df. auto.
  - intros files name df c -> Hlen Hf Hc.
    rewrite _load_clicks_concat. apply in_concat. exists df.
    split; [|assumption]. apply read_all_In. apply in_map_iff.
    exists (name, Returns df). split; [reflexivity|].
    rewrite py_prefix_nonneg by lia.
    rewrite firstn_all2
      by (rewrite (Permutation_length (sorted_by_name_perm files));
          simpl; lia).
    apply (Permutation_in _ (Permutation_sym (sorted_by_name_perm files))).
    assumption.
Qed.

(** *** The ten files with the smallest names *)

Lemma string_compare_refl (a : string) : String.compare a a = Eq.
Proof.
  pose proof (String.compare_antisym a a) as H.
  destruct (String.compare a a); simpl in H; congruence.
Qed.

Lemma string_compare_lt_trans (a b c : string) :
  String.compare a b = Lt -> String.compare b c = Lt -> String.compare a c = Lt.
Proof.
  revert b c. induction a as [|x a IH]; intros [|y b] [|z c]; simpl;
    try discriminate; try reflexivity.
  unfold Ascii.compare.
  generalize (N_of_ascii x) (N_of_ascii y) (N_of_ascii z). intros nx ny nz.
  destruct (N.compare_spec nx ny) as [Hxy|Hxy|Hxy]; try discriminate;
    destruct (N.compare_spec ny nz) as [Hyz|Hyz|Hyz]; try discriminate;
    destruct (N.compare_spec nx nz) as [Hxz|Hxz|Hxz]; try reflexivity;
    try lia; intros H1 H2; eauto.
Qed.

Lemma string_leb_trans (a b c : string) :
  String.leb a b = true -> String.leb b c = true -> String.leb a c = true.
Proof.
  unfold String.leb.
  destruct (String.compare a b) eqn:Hab; try discriminate;
    destruct (String.compare b c) eqn:Hbc; try discriminate; intros _ _.
  - apply String.compare_eq_iff in Hab. subst. rewrite Hbc. reflexivity.
  - apply String.compare_eq_iff in Hab. subst. rewrite Hbc. reflexivity.
  - apply String.compare_eq_iff in Hbc. subst. rewrite Hab. reflexivity.
  - rewrite (string_compare_lt_trans a b c Hab Hbc). reflexivity.
Qed.

Lemma string_leb_not_ltb (a b : string) :
  String.leb a b = true -> String.ltb b a = false.
Proof.
  unfold String.leb, String.ltb. rewrite (String.compare_antisym b a).
  destruct (String.compare a b); simpl; congruence.
Qed.

(** Files in ascending order of their names. *)
Definition by_name (f g : Engine.csv_file) : Prop :=
  String.leb (fst f) (fst g) = true.

Lemma insert_by_name_sorted (f : Engine.csv_file) (l : list Engine.csv_file) :
  StronglySorted by_name l -> StronglySorted by_name (Engine.insert_by_name f l).
Proof.
  induction 1 as [|g l Hl IH Hg]; simpl; [repeat constructor|].
  destruct (String.leb (fst f) (fst g)) eqn:Hfg.
  - constructor; [constructor; assumption|].
    constructor; [exact Hfg|].
    eapply Forall_impl; [|exact Hg]. intros h Hh.
    unfold by_name in *. eapply string_leb_trans; eassumption.
  - constructor; [assumption|].
    apply (Permutation_Forall (Permutation_sym (insert_by_name_perm f l))).
    constructor; [|assumption].
    unfold by_name. destruct (String.leb_total (fst f) (fst g)); congruence.
Qed.

Lemma sorted_by_name_sorted (files : list Engine.csv_file) :
  StronglySorted by_name (Engine.sorted_by_name files).
Proof.
  induction files as [|f files IH]; simpl; [constructor|].
  apply insert_by_name_sorted. assumption.
Qed.

Lemma Permutation_filter_length {A : Type} (p : A -> bool) (l l' : list A) :
  Permutation l l' -> List.length (filter p l) = List.length (filter p l').
Proof.
  induction 1 as [|x l l' _ IH|x y l|l l' l'' _ IH1 _ IH2]; simpl.
  - reflexivity.
  - destruct (p x); simpl; congruence.
  - destruct (p x), (p y); reflexivity.
  - congruence.
Qed.

(** In a list sorted by name, fewer than [k] files have a name smaller
    than that of one of the first [k]. *)
Lemma smaller_names_before (k : nat) (l : list Engine.csv_file)
    (f : Engine.csv_file) :
  StronglySorted by_name l -> In f (firstn k l) ->
  (List.length (filter (fun g => String.ltb (fst g) (fst f)) l) < k)%nat.
Proof.
  intros Hs. revert k. induction Hs as [|g l Hl IH Hg]; intros [|k] Hin;
    simpl in Hin; try contradiction.
  destruct Hin as [->|Hin].
  - assert (Hnone : filter (fun g => String.ltb (fst g) (fst f)) (f :: l) = []).
    { simpl. unfold String.ltb at 1. rewrite string_compare_refl.
      clear IH Hl. induction l as [|h l IHl]; simpl; [reflexivity|].
      inversion Hg as [|? ? Hh Hg']; subst.
      rewrite (string_leb_not_ltb _ _ Hh). auto. }
    rewrite Hnone. simpl. lia.
  - specialize (IH k Hin). simpl.
    destruct (String.ltb (fst g) (fst f)); simpl; lia.
Qed.

(** X12.  A click is loaded only from a readable file that is among the
    ten files of the folder with the smallest names: fewer than ten files
    of the folder have a smaller name than it has. *)
Theorem only_the_first_ten_files_are_read (files : list Engine.csv_file)
    (c : click) :
  In c (Engine._load_clicks (Some files)) ->
  exists name df,
    In (name, Returns df) files /\ In c df /\
    (List.length (filter (fun g => String.ltb (fst g) name) files) < 10)%nat.
Proof.
  rewrite _load_clicks_concat. intros Hc. apply in_concat in Hc.
  destruct Hc as (df & Hdf & Hc). apply read_all_In in Hdf.
  apply in_map_iff in Hdf. destruct Hdf as ([name r] & Hr & Hin).
  simpl in Hr. subst r. rewrite py_prefix_nonneg in Hin by lia.
  exists name, df. split; [|split; [assumption|]].
  - apply firstn_In in Hin.
    apply (Permutation_in _ (sorted_by_name_perm files)). assumption.
  - rewrite <- (Permutation_filter_length _ _ _ (sorted_by_name_perm files)).
    apply (smaller_names_before _ _ (name, Returns df)
             (sorted_by_name_sorted files) Hin).
Qed.

(** A folder with an unreadable file and a readable one. *)
Lemma only_the_first_ten_files_are_read_witness :
  exists name df,
    In (name, Returns df)
       [("b.csv"%string, Throws External);
        ("a.csv"%string, Returns [ {| user_id := 1; click_article_id := 10 |} ])] /\
    In {| user_id := 1; click_article_id := 10 |} df /\
    (List.length
       (filter (fun g : Engine.csv_file => String.ltb (fst g) name)
          [("b.csv"%string, Throws External);
           ("a.csv"%string, Returns [ {| user_id := 1; click_article_id := 10 |} ])])
     < 10)%nat.
Proof.
  apply (only_the_first_ten_files_are_read
           [("b.csv"%string, Throws External);
            ("a.csv"%string, Returns [ {| user_id := 1; click_article_id := 10 |} ])]
           {| user_id := 1; click_article_id := 10 |}).
  vm_compute. auto.
Defined.

(* ================================================================== *)
(** * The cache of the function app *)

(** X13.  Once [load_data_from_blob] has returned normally, every later
    call returns at once and leaves the globals alone, whatever the
    storage holds by then: the data is loaded once per process. *)
Theorem data_is_loaded_once (env env' : Service.environment)
    (g g' : Service.globals) :
  Service.load_data_from_blob env g = (g', Returns tt) ->
  Service.load_data_from_blob env' g' = (g', Returns tt).
Proof.
  unfold Service.load_data_from_blob at 1.
  destruct (Service._embeddings g) as [m|] eqn:Hg.
  { intros H. injection H as <-.
    unfold Service.load_data_from_blob. rewrite Hg. reflexivity. }
  destruct (Service.AzureWebJobsStorage env) as [cs|]; [|discriminate].
  destruct (String.eqb cs EmptyString); [discriminate|].
  destruct (Service.get_container_client env cs) as [c|e]; [|discriminate].
  destruct (Service.articles_embeddings_pickle c) as [m|e]; [|discriminate].
  destruct (Service.articles_metadata_csv c) as [metadata|e]; [|discriminate].
  cbv zeta.
  destruct (Service.click_files c) as [files|e]; [|discriminate].
  intros H. injection H as <-. reflexivity.
Qed.

(** A storage account for evaluating the loader: the matrix and catalog
    of the small store, one click blob under [clicks/], and a file that is
    not one. *)
Definition small_container : Service.container :=
  {| Service.articles_embeddings_pickle := Returns (embeddings Examples.small_store);
     Service.articles_metadata_csv := Returns (articles_metadata Examples.small_store);
     Service.list_blobs := fun _ =>
       Returns ["clicks/clicks_hour_000.csv"; "clicks/readme.txt"]%string;
     Service.read_csv := fun _ => Returns (user_clicks Examples.small_store) |}.

Definition small_environment : Service.environment :=
  {| Service.AzureWebJobsStorage := Some "UseDevelopmentStorage=true"%string;
     Service.get_container_client := fun _ => Returns small_container |}.

(** The same account while the catalog blob cannot be read. *)
Definition broken_environment : Service.environment :=
  {| Service.AzureWebJobsStorage := Some "UseDevelopmentStorage=true"%string;
     Service.get_container_client := fun _ =>
       Returns {| Service.articles_embeddings_pickle :=
                    Returns (embeddings Examples.small_store);
                  Service.articles_metadata_csv := Throws External;
                  Service.list_blobs := Service.list_blobs small_container;
                  Service.read_csv := Service.read_csv small_container |} |}.

Lemma data_is_loaded_once_witness :
  Service.loaded (fst (Service.load_data_from_blob small_environment Service.unloaded))
  = Some Examples.small_store /\
  Service.load_data_from_blob broken_environment
    (fst (Service.load_data_from_blob small_environment Service.unloaded))
  = (fst (Service.load_data_from_blob small_environment Service.unloaded),
     Returns tt).
Proof.
  split; [vm_compute; reflexivity|].
  apply (data_is_loaded_once small_environment broken_environment
           Service.unloaded).
  vm_compute. reflexivity.
Defined.

(** X14.  A load that starts without embeddings and returns normally has
    assigned all four globals; the identifiers are those of the first
    catalog rows, as many as the matrix has rows, never more than that. *)
Theorem successful_load_fills_the_store (env : Service.environment)
    (g g' : Service.globals) :
  Service._embeddings g = None ->
  Service.load_data_from_blob env g = (g', Returns tt) ->
  exists d,
    Service.loaded g' = Some d /\
    (article_ids d, embeddings d)
    = FunctionApp.load_data_from_blob (embeddings d) (articles_metadata d) /\
    (List.length (article_ids d) <= List.length (embeddings d))%nat.
Proof.
  intros Hg. unfold Service.load_data_from_blob. rewrite Hg.
  destruct (Service.AzureWebJobsStorage env) as [cs|]; [|discriminate].
  destruct (String.eqb cs EmptyString); [discriminate|].
  destruct (Service.get_container_client env cs) as [c|e]; [|discriminate].
  destruct (Service.articles_embeddings_pickle c) as [m|e]; [|discriminate].
  destruct (Service.articles_metadata_csv c) as [metadata|e]; [|discriminate].
  cbv zeta.
  destruct (Service.click_files c) as [files|e]; [|discriminate].
  intros H. injection H as <-. eexists. split; [reflexivity|]. simpl.
  split; [reflexivity|].
  pose proof (py_prefix_length (Z.of_nat (List.length m))
                (map row_article_id metadata) ltac:(lia)).
  lia.
Qed.

Lemma successful_load_fills_the_store_witness :
  exists d,
    Service.loaded (fst (Service.load_data_from_blob small_environment
                           Service.unloaded)) = Some d /\
    (article_ids d, embeddings d)
    = FunctionApp.load_data_from_blob (embeddings d) (articles_metadata d) /\
    (List.length (article_ids d) <= List.length (embeddings d))%nat.
Proof.
  apply (successful_load_fills_the_store small_environment Service.unloaded);
    [reflexivity | vm_compute; reflexivity].
Defined.

(** X15.  A load that starts without embeddings and raises has either left
    the globals as they were, or has assigned [_embeddings] and not the
    click log; in the second case every later call finds [_embeddings]
    set, returns normally and loads nothing more. *)
Theorem failed_load_may_leave_half_a_cache (env : Service.environment)
    (g g' : Service.globals) (e : exception) :
  Service._embeddings g = None ->
  Service.load_data_from_blob env g = (g', Throws e) ->
  g' = g \/
  (Service._embeddings g' <> None /\
   Service._user_clicks g' = Service._user_clicks g /\
   forall env', Service.load_data_from_blob env' g' = (g', Returns tt)).
Proof.
  intros Hg. unfold Service.load_data_from_blob at 1. rewrite Hg.
  destruct (Service.AzureWebJobsStorage env) as [cs|];
    [|intros H; injection H as <- _; auto].
  destruct (String.eqb cs EmptyString); [intros H; injection H as <- _; auto|].
  destruct (Service.get_container_client env cs) as [c|e1];
    [|intros H; injection H as <- _; auto].
  destruct (Service.articles_embeddings_pickle c) as [m|e1];
    [|intros H; injection H as <- _; auto].
  destruct (Service.articles_metadata_csv c) as [metadata|e1].
  - cbv zeta. destruct (Service.click_files c) as [files|e2]; [discriminate|].
    intros H. injection H as <- _. right.
    split; [discriminate|]. split; reflexivity.
  - intros H. injection H as <- _. right.
    split; [discriminate|]. split; reflexivity.
Qed.

(** With the catalog blob unreadable the first call raises, the second
    returns normally, and the identifiers are still unassigned. *)
Lemma failed_load_may_leave_half_a_cache_witness :
  snd (Service.load_data_from_blob broken_environment Service.unloaded)
  = Throws External /\
  Service._article_ids
    (fst (Service.load_data_from_blob broken_environment Service.unloaded))
  = None /\
  Service.load_data_from_blob small_environment
    (fst (Service.load_data_from_blob broken_environment Service.unloaded))
  = (fst (Service.load_data_from_blob broken_environment Service.unloaded),
     Returns tt).
Proof.
  split; [reflexivity|]. split; [reflexivity|].
  destruct (failed_load_may_leave_half_a_cache broken_environment
              Service.unloaded
              (fst (Service.load_data_from_blob broken_environment Service.unloaded))
              External eq_refl ltac:(vm_compute; reflexivity))
    as [Hsame|(_ & _ & Hcached)].
  - vm_compute in Hsame. discriminate.
  - apply Hcached.
Defined.

(* ================================================================== *)
(** * The HTTP function *)

(** The [top_n] parameter as it is parsed: ['5'] when the query has none. *)
Definition requested_top_n (top_n : option string) : string :=
  match top_n with
  | Some s => s
  | None => "5"%string
  end.

(** X16.  The function answers 200 exactly when the data could be loaded,
    [user_id] is present and not empty, both parameters are integers and
    [recommend_for_user] returns; the body then carries that user, the
    list returned, and as [count] the length of the list. *)
Theorem ok_responses_carry_the_list (int : string -> exc Z)
    (load : outcome unit)
    (recommend_for_user : Z -> Z -> outcome (list recommendation))
    (user_id top_n : option string) :
  Service.status_code
    (Service.recommend int load recommend_for_user user_id top_n) = 200 <->
  exists u uid n recs,
    load = Returns tt /\ user_id = Some u /\ u <> EmptyString /\
    int u = Ok uid /\ int (requested_top_n top_n) = Ok n /\
    recommend_for_user uid n = Returns recs /\
    Service.body (Service.recommend int load recommend_for_user user_id top_n)
    = Service.recommendations_for uid recs (Z.of_nat (List.length recs)).
Proof.
  unfold Service.recommend, requested_top_n. split.
  - destruct load as [[]|e]; [|discriminate].
    destruct user_id as [u|]; [|discriminate].
    destruct (String.eqb_spec u EmptyString) as [->|Hu]; [discriminate|].
    destruct (int u) as [uid|[| |]] eqn:Hi; try discriminate.
    destruct (int match top_n with Some s => s | None => "5"%string end)
      as [n|[| |]] eqn:Hn; try discriminate.
    destruct (recommend_for_user uid n) as [recs|e] eqn:Hr; [|discriminate].
    intros _. exists u, uid, n, recs. simpl. repeat split; auto.
  - intros (u & uid & n & recs & -> & -> & Hu & Hi & Hn & Hr & _).
    destruct (String.eqb_spec u EmptyString) as [->|_]; [contradiction|].
    rewrite Hi, Hn, Hr. reflexivity.
Qed.

(** X17.  The function answers 400 exactly when the data could be loaded
    and the request is at fault: [user_id] is missing or empty, or it is
    not an integer, or it is one and [top_n] is not.  A missing [top_n]
    is never at fault. *)
Theorem bad_requests (int : string -> exc Z) (load : outcome unit)
    (recommend_for_user : Z -> Z -> outcome (list recommendation))
    (user_id top_n : option string) :
  Service.status_code
    (Service.recommend int load recommend_for_user user_id top_n) = 400 <->
  load = Returns tt /\
  (user_id = None \/ user_id = Some EmptyString \/
   exists u, user_id = Some u /\
     (int u = Raise ValueError \/
      exists uid, int u = Ok uid /\
                  int (requested_top_n top_n) = Raise ValueError)).
Proof.
  unfold Service.recommend, requested_top_n. split.
  - destruct load as [[]|e]; [|discriminate].
    destruct user_id as [u|]; [|auto].
    destruct (String.eqb_spec u EmptyString) as [->|Hu]; [auto|].
    destruct (int u) as [uid|[| |]] eqn:Hi; try discriminate.
    + destruct (int match top_n with Some s => s | None => "5"%string end)
        as [n|[| |]] eqn:Hn; try discriminate.
      * destruct (recommend_for_user uid n); discriminate.
      * intros _. split; [reflexivity|]. right. right. exists u. eauto.
    + intros _. split; [reflexivity|]. right. right. exists u. auto.
  - intros [-> H]. destruct H as [->|[->|(u & -> & H)]]; try reflexivity.
    destruct (String.eqb_spec u EmptyString) as [->|_]; [reflexivity|].
    destruct H as [->|(uid & -> & ->)]; reflexivity.
Qed.

(** ** Requests served from a well-formed store *)

Lemma get_similar_articles_total (L : NumericLibrary) (d : recommender)
    (article_id top_k : Z) :
  well_behaved L ->
  List.length (embeddings d) = List.length (article_ids d) ->
  exists r, @get_similar_articles L d article_id top_k = Ok r.
Proof.
  intros [Hcos Hsort] Hlen.
  destruct (in_dec Z.eq_dec article_id (article_ids d)) as [Hin|Hout];
    [|exists []; apply get_similar_articles_absent; assumption].
  destruct (list_index_present _ _ Hin) as (idx & Hidx & Hnth).
  assert (Hlt : (idx < List.length (embeddings d))%nat).
  { rewrite Hlen. apply nth_error_Some. congruence. }
  destruct (nth_error (embeddings d) idx) as [emb|] eqn:Hemb;
    [|apply nth_error_Some in Hlt; contradiction].
  set (sims := @cosine_similarity L emb (embeddings d)).
  assert (Hsims : List.length sims = List.length (article_ids d))
    by (unfold sims; rewrite Hcos; assumption).
  destruct (similar_indices_ok L sims top_k (Hsort sims)) as [_ Hbound].
  destruct (mapM_total
              (fun i => aid <- subscript (article_ids d) i ;;
                        sim <- subscript sims i ;; Ok (aid, sim))
              (py_slice 1 (top_k + 1) (rev (argsort sims)))) as (r & Hr).
  { intros i Hi. apply Hbound in Hi. unfold subscript.
    destruct (nth_error (article_ids d) i) as [a|] eqn:Ha;
      [|apply nth_error_None in Ha; lia].
    destruct (nth_error sims i) as [s|] eqn:Hs;
      [|apply nth_error_None in Hs; lia].
    simpl. eexists; reflexivity. }
  exists r. unfold get_similar_articles. rewrite Hidx. simpl.
  unfold subscript at 1. rewrite Hemb. simpl. fold sims. rewrite Hr.
  reflexivity.
Qed.

Lemma collect_total (L : NumericLibrary) (d : recommender)
    (user_history seeds : list Z) (scores : scores_dict) :
  well_behaved L ->
  List.length (embeddings d) = List.length (article_ids d) ->
  exists result, @collect L d user_history seeds scores = Ok result.
Proof.
  intros HL Hlen. revert scores.
  induction seeds as [|a seeds IH]; simpl; intros scores;
    [eexists; reflexivity|].
  destruct (get_similar_articles_total L d a 20 HL Hlen) as (sim & ->).
  simpl. apply IH.
Qed.

(** On a store with one embedding row per identifier, a catalog without
    empty numeric cells and a library that behaves as documented, the
    function app's [recommend_for_user] returns for every user and every
    [top_n] whose ranks [float] accepts. *)
Lemma function_app_recommend_total (L : NumericLibrary) (d : recommender)
    (uid top_n : Z) :
  well_behaved L ->
  List.length (embeddings d) = List.length (article_ids d) ->
  words_counted (articles_metadata d) ->
  categories_known (articles_metadata d) ->
  Z.abs top_n + Z.of_nat (List.length (article_ids d)) < 2 ^ 1023 ->
  exists l, @FunctionApp.recommend_for_user L d uid top_n = Ok l.
Proof.
  intros HL Hlen Hw Hc Hn. unfold FunctionApp.recommend_for_user.
  destruct (get_user_history d uid) as [|a h].
  - apply function_app_first_articles_total.
    + apply rows_readable_all; assumption.
    + rewrite Z.sub_0_r. apply countdown_small.
      destruct (py_prefix_firstn top_n (article_ids d)) as (k & ->).
      rewrite length_firstn. lia.
  - unfold sorted_recommendations.
    destruct (collect_total L d (a :: h) (py_prefix 5 (a :: h)) [] HL Hlen)
      as (scores & ->).
    simpl. apply mapM_total. intros p _.
    destruct (function_app_info_total d (fst p) Hw Hc) as (i & ->).
    simpl. eexists; reflexivity.
Qed.

(** X18.  Served from a cache that holds such a store, a request with
    integer [user_id] and [top_n] is answered 200, whoever the user is,
    for every [top_n] whose magnitude plus the number of stored
    identifiers stays below 2^1023, so that [float] accepts every rank of
    the fallback; for [top_n >= 0] the list has at most [top_n] entries. *)
Theorem well_formed_store_answers_200 (L : NumericLibrary)
    (int : string -> exc Z) (d : recommender) (u : string)
    (top_n : option string) (uid n : Z) :
  well_behaved L ->
  List.length (embeddings d) = List.length (article_ids d) ->
  words_counted (articles_metadata d) ->
  categories_known (articles_metadata d) ->
  u <> EmptyString ->
  int u = Ok uid ->
  int (requested_top_n top_n) = Ok n ->
  Z.abs n + Z.of_nat (List.length (article_ids d)) < 2 ^ 1023 ->
  exists recs,
    @Service.recommend_from L int d (Some u) top_n
    = {| Service.body :=
           Service.recommendations_for uid recs (Z.of_nat (List.length recs));
         Service.status_code := 200 |} /\
    @FunctionApp.recommend_for_user L d uid n = Ok recs /\
    (0 <= n -> Z.of_nat (List.length recs) <= n).
Proof.
  intros HL Hlen Hw Hc Hu Hi Hn Hsmall.
  destruct (function_app_recommend_total L d uid n HL Hlen Hw Hc Hsmall)
    as (recs & Hr).
  exists recs. split; [|split; [assumption|]].
  - unfold Service.recommend_from, Service.recommend.
    destruct (String.eqb_spec u EmptyString) as [->|_]; [contradiction|].
    unfold requested_top_n in Hn. rewrite Hi, Hn, Hr. reflexivity.
  - intros H0. apply (function_app_result_shape d uid n recs H0 Hr).
Qed.

(** [GET /api/recommend?user_id=43] on the small store: the default
    [top_n] of 5 applies. *)
Lemma well_formed_store_answers_200_witness :
  exists recs,
    Service.recommend_from Service.int_of_decimal Examples.small_store
      (Some "43"%string) None
    = {| Service.body :=
           Service.recommendations_for 43 recs (Z.of_nat (List.length recs));
         Service.status_code := 200 |} /\
    FunctionApp.recommend_for_user Examples.small_store 43 5 = Ok recs /\
    (0 <= 5 -> Z.of_nat (List.length recs) <= 5).
Proof.
  apply (well_formed_store_answers_200 numpy_sklearn Service.int_of_decimal
           Examples.small_store "43"%string None 43 5 numpy_well_behaved
           eq_refl (words_counted_plain _) (categories_known_plain _)).
  - discriminate.
  - reflexivity.
  - reflexivity.
  - reflexivity.
Defined.

(** Without the bound the function fails: [top_n = 2^1024], written in
    decimal, for a user without history makes [float] raise, and the
    handler answers 500. *)
Lemma huge_top_n_answers_500 :
  Service.status_code
    (Service.recommend_from Service.int_of_decimal Examples.empty_log_store
       (Some "7"%string) (Some (str_of_int (2 ^ 1024)))) = 500.
Proof. vm_compute. reflexivity. Qed.

(** X19.  The engine's [recommend_for_user] returns, for every user and
    every [top_n] whose magnitude plus the number of catalog rows stays
    below 2^1023, on a store with one embedding row per identifier and a
    catalog without empty word-count cells, given a library that behaves
    as documented: neither an unknown user, nor an unknown article in a
    history, nor an article missing from the catalog makes it raise. *)
Theorem engine_returns_on_clean_data (L : NumericLibrary) (d : recommender)
    (uid top_n : Z) :
  well_behaved L ->
  List.length (embeddings d) = List.length (article_ids d) ->
  words_counted (articles_metadata d) ->
  Z.abs top_n + Z.of_nat (List.length (articles_metadata d)) < 2 ^ 1023 ->
  exists l, @Engine.recommend_for_user L d uid top_n = Ok l.
Proof.
  intros HL Hlen Hw Hn. unfold Engine.recommend_for_user.
  destruct (get_user_history d uid) as [|a h].
  - unfold Engine._get_popular_articles.
    destruct (user_clicks d) as [|c cs].
    + destruct (py_prefix_firstn top_n (articles_metadata d)) as (k & Hk).
      apply engine_first_articles_total.
      * intros row Hrow. apply Hw.
        rewrite Hk in Hrow. apply firstn_In in Hrow. assumption.
      * rewrite Z.sub_0_r. apply countdown_small. rewrite Hk.
        rewrite length_firstn. lia.
    + apply mapM_total. intros p _.
      destruct (engine_info_total d (fst p) Hw) as (i & ->).
      simpl. eexists; reflexivity.
  - unfold sorted_recommendations.
    destruct (collect_total L d (a :: h) (py_prefix 5 (a :: h)) [] HL Hlen)
      as (scores & ->).
    simpl. apply mapM_total. intros p _.
    destruct (engine_info_total d (fst p) Hw) as (i & ->).
    simpl. eexists; reflexivity.
Qed.

(** User 46 of the small store read only an article that has no
    embedding. *)
Lemma engine_returns_on_clean_data_witness :
  exists l, Engine.recommend_for_user Examples.small_store 46 5 = Ok l.
Proof.
  apply (engine_returns_on_clean_data numpy_sklearn Examples.small_store 46 5
           numpy_well_behaved eq_refl (words_counted_plain _)).
  reflexivity.
Defined.
